(** * XChange-Hub: the rate table view-model, its synthetic trends,
      the alert store and the rate fetch effect

    A shallow embedding of
    - [src/pages/CurrencyChartsSection.tsx]  (module [CurrencyChartsSection]),
    - [src/pages/CurrencyChartsFullPage.tsx] (module [CurrencyChartsFullPage]),
    - [src/pages/GetAlertsSection.tsx]       (module [GetAlertsSection]),
    - [src/pages/components/CurrencyDropdown.tsx] (module [CurrencyDropdown]),
    of the [useEffect] that fetches the rates in both chart components
    (module [RateFetch]) and of their [Sparkline] (module [Sparkline]).

    Conventions of the embedding.
    - A JavaScript [number] that holds an integer (a seed, a loop index) is a
      [Z]; the arithmetic on it is exact, as it is in the source while the
      intermediate products stay below 2^53.  The seeds for which they do
      are the [safeSeed]s; a property of the values of a trend is stated
      for those.
    - A JavaScript [number] that holds a fraction (a rate, a trend value) is
      an exact rational [Q]; rounding of IEEE doubles is not modelled, nor
      are [Infinity] and [NaN] as results of the arithmetic.  A property
      of the drawing is stated for [safeNumber]s, on which no operation of
      the source overflows.
    - [%] is JavaScript's remainder, which takes the sign of the dividend:
      [Z.rem].
    - A [Record<string, number>] is an association list in insertion order,
      the order [Object.keys] enumerates; its keys are pairwise distinct
      ([wellFormed]).  [o[key]] reads the entries of the object itself
      ([lookup]); the source finds the members of [Object.prototype] as
      well, so the two agree on the keys that name no such member
      ([plainKey], which every currency code is).  A property that reads
      a base or a focus currency in a table is stated for such keys.
    - A string is a [string].
    - What the host supplies is a parameter: the collation behind
      [localeCompare] (class [Collator]), and [JSON.parse],
      [JSON.stringify] and [Number] (class [Host]).

    The definitions come first, the properties after them. *)

From Stdlib Require Import ZArith QArith Qround Lia Lqa List String Ascii Bool.
From Stdlib Require Import Permutation Sorted OrderedTypeEx.
Import ListNotations.

Local Open Scope Z_scope.

(** ** Shared data *)

(** [type RangeKey = "24H" | "7D" | "30D" | "3M"] *)
Inductive RangeKey : Type := Range24H | Range7D | Range30D | Range3M.

Definition RangeKey_eqb (a b : RangeKey) : bool :=
  match a, b with
  | Range24H, Range24H | Range7D, Range7D
  | Range30D, Range30D | Range3M, Range3M => true
  | _, _ => false
  end.

(** ** The trend generator

    Both chart components carry their own copy of [makeTrend]; the copies
    differ in three constants only: the number of steps per range and the two
    offsets of the hash [(seed + a) * (i + b)].  The loop is written once,
    over these constants, and instantiated in each component's module. *)
Module TrendGenerator.
Section Walk.
(** [const length = range === "24H" ? .. : ..] *)
Variable length : RangeKey -> nat.
(** the [a] and [b] of [const s = (seed + a) * (i + b)] *)
Variables seedShift indexShift : Z.

(** [let spread = 0.004; if (range === "7D") spread = 0.008; ...] *)
Definition spread (range : RangeKey) : Q :=
  let spread := 0.004%Q in
  let spread := if RangeKey_eqb range Range7D then 0.008%Q else spread in
  let spread := if RangeKey_eqb range Range30D then 0.012%Q else spread in
  let spread := if RangeKey_eqb range Range3M then 0.018%Q else spread in
  spread.

(** [(s * 9301 + 49297) % 233280] for [s = (seed + a) * (i + b)], in
    exact integer arithmetic: this is what the source computes while its
    numbers stay within 2^53, which they do for every [safeSeed]. *)
Definition hash (seed i : Z) : Z :=
  let s := (seed + seedShift) * (i + indexShift) in
  Z.rem (s * 9301 + 49297) 233280.

(** [const rand = (((s * 9301 + 49297) % 233280) / 233280) * 2 - 1] *)
Definition rand (seed i : Z) : Q :=
  (inject_Z (hash seed i) / 233280 * 2 - 1)%Q.

(** One pass through the body of the [for] loop: the state is the loop
    variable [v] and the array [values]. *)
Definition step (range : RangeKey) (seed i : Z) (st : Q * list Q)
  : Q * list Q :=
  let '(v, values) := st in
  let delta := (rand seed i * spread range)%Q in
  let v := (v * (1 + delta))%Q in
  (v, values ++ [v]).

(** [for (let i = 0; i < length; i++) { .. }], [n] iterations left *)
Fixpoint loop (range : RangeKey) (seed : Z) (n : nat) (i : Z)
         (st : Q * list Q) : Q * list Q :=
  match n with
  | O => st
  | S n' => loop range seed n' (i + 1) (step range seed i st)
  end.

Definition makeTrend (range : RangeKey) (seed : Z) : list Q :=
  snd (loop range seed (length range) 0 (1%Q, [])).
End Walk.
End TrendGenerator.

(** The step counts the specification allows per range: 16 to 18 for 24H,
    20 to 22 for 7D, 24 to 26 for 30D, 28 to 30 for 3M, growing in that
    order. *)
Definition lengthsWithin (len : RangeKey -> nat) : Prop :=
  (16 <= len Range24H <= 18 /\ 20 <= len Range7D <= 22
   /\ 24 <= len Range30D <= 26 /\ 28 <= len Range3M <= 30
   /\ len Range24H < len Range7D /\ len Range7D < len Range30D
   /\ len Range30D < len Range3M)%nat.

(** [Number(x.toFixed(2))]: the nearest multiple of 1/100, ties away from
    zero ([toFixed] rounds the magnitude and puts the sign back). *)
Definition roundHalfUp (x : Q) : Z := Qfloor (x + (1 # 2)).

Definition toFixed2 (x : Q) : Q :=
  if Qle_bool 0 x then inject_Z (roundHalfUp (x * 100)) / 100
  else - (inject_Z (roundHalfUp (- x * 100)) / 100).

(** [(trend[trend.length - 1] / trend[0] - 1) * 100], then
    [Number(changeRaw.toFixed(2))] *)
Definition changePctOf (trend : list Q) : Q :=
  let changeRaw := ((last trend 0 / hd 0 trend - 1) * 100)%Q in
  toFixed2 changeRaw.

(** ** Rows, rate snapshots and the string collation *)

(** [type TableRow] of the full page; the section builds objects of the same
    shape ([{...row, rate, changePct, values, isFocus}]). *)
Record TableRow : Type := mkRow {
  code : string;
  name : string;
  flag : string;
  rate : Q;
  changePct : Q;
  values : list Q;
  isFocus : bool
}.

(** [Record<string, number>] *)
Definition Rates : Type := list (string * Q).

(** [Object.keys(rates)] *)
Definition Object_keys {V : Type} (o : list (string * V)) : list string :=
  map fst o.

(** [o[key]] on the entries of the object itself: [None] is [undefined].
    The members an object inherits from [Object.prototype] are not among
    its entries; [o[key]] is [lookup o key] for every [key] that names none
    of them ([plainKey]). *)
Fixpoint lookup {V : Type} (o : list (string * V)) (key : string) : option V :=
  match o with
  | [] => None
  | (k, v) :: o' => if String.eqb k key then Some v else lookup o' key
  end.

(** A snapshot is well formed when no key occurs twice, as in any object. *)
Definition wellFormed {V : Type} (o : list (string * V)) : Prop :=
  NoDup (Object_keys o).

(** [codes.includes(c)] *)
Definition includes_code (codes : list string) (c : string) : bool :=
  existsb (String.eqb c) codes.

(** Truthiness of a string and of a number that is not [NaN]. *)
Definition truthy_string (s : string) : bool := negb (String.eqb s "").
Definition truthy_number (x : Q) : bool := negb (Qeq_bool x 0).

(** [String.prototype.localeCompare] is supplied by the host.  The table
    only relies on it being a strict total order on the codes it compares. *)
Class Collator : Type := localeCompare : string -> string -> comparison.

Class CollatorLaws (C : Collator) : Prop := {
  localeCompare_eq : forall a b, localeCompare a b = Eq -> a = b;
  localeCompare_antisym :
    forall a b, localeCompare b a = CompOpp (localeCompare a b);
  localeCompare_trans :
    forall a b c,
      localeCompare a b = Lt -> localeCompare b c = Lt ->
      localeCompare a c = Lt
}.

(** The collation of strings of ASCII capitals, such as currency codes:
    code unit by code unit. *)
#[export] Instance codeUnitCollator : Collator := String.compare.

(** [Array.prototype.sort(compareFn)] with a consistent comparator: a stable
    sort.  Written as the insertion sort, which keeps the order of elements
    that compare equal.  [rowCompare] below is consistent when the collation
    is a strict total order ([CollatorLaws]). *)
Section ArraySort.
Context {A : Type} (compareFn : A -> A -> comparison).

Fixpoint insert (x : A) (l : list A) : list A :=
  match l with
  | [] => [x]
  | y :: l' =>
      match compareFn x y with
      | Gt => y :: insert x l'
      | _ => x :: l
      end
  end.

Fixpoint Array_sort (l : list A) : list A :=
  match l with
  | [] => []
  | x :: l' => insert x (Array_sort l')
  end.

(** [a] may stand before [b]: the comparator does not put it after. *)
Definition notAfter (a b : A) : Prop := compareFn a b <> Gt.
End ArraySort.

(** The comparator both components pass to [sort]:
    [if (a.isFocus && !b.isFocus) return -1;
     if (!a.isFocus && b.isFocus) return 1;
     return a.code.localeCompare(b.code);] *)
Definition rowCompare {C : Collator} (a b : TableRow) : comparison :=
  if isFocus a && negb (isFocus b) then Lt
  else if negb (isFocus a) && isFocus b then Gt
  else localeCompare (code a) (code b).

(** Strictly ascending by code. *)
Definition ascending {C : Collator} (l : list TableRow) : Prop :=
  StronglySorted (fun a b => localeCompare (code a) (code b) = Lt) l.

(** The rows other than the focus row are those with [notFocus]. *)
Definition notFocus (r : TableRow) : bool := negb (isFocus r).

(** A list of rows flags the focus currency when [isFocus] is set on the
    rows of that code and on no other. *)
Definition flags (focusCurrency : string) (l : list TableRow) : Prop :=
  Forall (fun r => isFocus r = String.eqb (code r) focusCurrency) l.

(** What the scenarios of the specification look at in a row. *)
Definition shown (r : TableRow) : string * bool * Q :=
  (code r, isFocus r, rate r).

(** The snapshot of scenario A. *)
Definition scenarioA : Rates := [("INR", 83.1); ("EUR", 0.92)]%string%Q.

(** [array.forEach((x, index) => ..)] threading the state the callback
    updates. *)
Fixpoint forEach {A S : Type} (body : S -> A -> Z -> S) (l : list A)
         (index : Z) (s : S) : S :=
  match l with
  | [] => s
  | x :: l' => forEach body l' (index + 1) (body s x index)
  end.

(** [array.map((x, index) => ..)] *)
Fixpoint mapi {A B : Type} (f : A -> Z -> B) (l : list A) (index : Z)
  : list B :=
  match l with
  | [] => []
  | x :: l' => f x index :: mapi f l' (index + 1)
  end.

(** [array.filter(Boolean)] on an array of rows and [null]s *)
Fixpoint filter_Boolean {A : Type} (l : list (option A)) : list A :=
  match l with
  | [] => []
  | Some x :: l' => x :: filter_Boolean l'
  | None :: l' => filter_Boolean l'
  end.

(** ** src/pages/CurrencyChartsFullPage.tsx *)
Module CurrencyChartsFullPage.

Definition FLAGS : list (string * string) :=
  [ ("USD", "🇺🇸"); ("EUR", "🇪🇺"); ("GBP", "🇬🇧"); ("JPY", "🇯🇵");
    ("CAD", "🇨🇦"); ("AUD", "🇦🇺"); ("INR", "🇮🇳"); ("SGD", "🇸🇬");
    ("CHF", "🇨🇭"); ("ZAR", "🇿🇦") ]%string.

Definition getName (code : string) : string :=
  if String.eqb code "USD" then "US Dollar"
  else if String.eqb code "EUR" then "Euro"
  else if String.eqb code "GBP" then "British Pound"
  else if String.eqb code "JPY" then "Japanese Yen"
  else if String.eqb code "CAD" then "Canadian Dollar"
  else if String.eqb code "AUD" then "Australian Dollar"
  else if String.eqb code "INR" then "Indian Rupee"
  else if String.eqb code "SGD" then "Singapore Dollar"
  else if String.eqb code "CHF" then "Swiss Franc"
  else if String.eqb code "ZAR" then "South African Rand"
  else code.

(** [range === "24H" ? 18 : range === "7D" ? 22 : range === "30D" ? 26 : 30] *)
Definition trendLength (range : RangeKey) : nat :=
  if RangeKey_eqb range Range24H then 18
  else if RangeKey_eqb range Range7D then 22
  else if RangeKey_eqb range Range30D then 26
  else 30.

(** [const s = (seed + 11) * (i + 17)] *)
Definition rand : Z -> Z -> Q := TrendGenerator.rand 11 17.

Definition makeTrend : RangeKey -> Z -> list Q :=
  TrendGenerator.makeTrend trendLength 11 17.

(** The body of [codes.forEach((code, index) => { .. })]; [result] is the
    array the callback pushes to. *)
Definition pushRow (rates : Rates) (baseCurrency focusCurrency : string)
           (range : RangeKey) (inverse : bool)
           (result : list TableRow) (code : string) (index : Z)
  : list TableRow :=
  if String.eqb code baseCurrency then result
  else
    match lookup rates code with
    | None => result
    | Some baseToQuote =>
        if negb (truthy_number baseToQuote) then result
        else
          let trend := makeTrend range (index + (if inverse then 20 else 0)) in
          result ++
            [ {| code := code;
                 name := getName code;
                 flag := match lookup FLAGS code with
                         | Some f => f
                         | None => "🌐"%string
                         end;
                 rate := baseToQuote;
                 changePct := changePctOf trend;
                 values := trend;
                 isFocus := String.eqb code focusCurrency |} ]
    end.

(** [Object.keys(rates)], with the focus currency put in front when it is
    non-empty, differs from the base and is not among the keys *)
Definition candidateCodes (rates : Rates) (baseCurrency focusCurrency : string)
  : list string :=
  let codes := Object_keys rates in
  if truthy_string focusCurrency
     && negb (String.eqb focusCurrency baseCurrency)
     && negb (includes_code codes focusCurrency)
  then focusCurrency :: codes
  else codes.

(** [const result: TableRow[] = []; codes.forEach(..)]: the rows before
    they are sorted *)
Definition result (rates : Rates) (baseCurrency focusCurrency : string)
           (range : RangeKey) (inverse : bool) : list TableRow :=
  let codes := candidateCodes rates baseCurrency focusCurrency in
  forEach (pushRow rates baseCurrency focusCurrency range inverse)
          codes 0 [].

(** The [useMemo] that builds [rows]; [rates = None] is [null]. *)
Definition rows {C : Collator} (rates : option Rates)
           (baseCurrency focusCurrency : string)
           (range : RangeKey) (inverse : bool) : list TableRow :=
  match rates with
  | None => []
  | Some rates =>
      Array_sort rowCompare
                 (result rates baseCurrency focusCurrency range inverse)
  end.

(** The codes that get a row: not the base, and with a rate that is not
    zero. *)
Definition kept (rates : Rates) (baseCurrency : string) (c : string) : bool :=
  negb (String.eqb c baseCurrency)
  && match lookup rates c with
     | Some q => truthy_number q
     | None => false
     end.

(** A row carries a code other than the base, the rate of the snapshot
    and the focus flag of its code. *)
Definition rowOk (rates : Rates) (baseCurrency focusCurrency : string)
           (r : TableRow) : Prop :=
  code r <> baseCurrency
  /\ lookup rates (code r) = Some (rate r)
  /\ isFocus r = String.eqb (code r) focusCurrency.

End CurrencyChartsFullPage.

(** ** src/pages/CurrencyChartsSection.tsx *)
Module CurrencyChartsSection.

Record RowMeta : Type := mkMeta {
  meta_code : string;
  meta_name : string;
  meta_flag : string
}.

Definition ROWS : list RowMeta :=
  [ mkMeta "USD" "US Dollar" "🇺🇸";
    mkMeta "EUR" "Euro" "🇪🇺";
    mkMeta "GBP" "British Pound" "🇬🇧";
    mkMeta "JPY" "Japanese Yen" "🇯🇵";
    mkMeta "CAD" "Canadian Dollar" "🇨🇦";
    mkMeta "AUD" "Australian Dollar" "🇦🇺";
    mkMeta "INR" "Indian Rupee" "🇮🇳" ]%string.

Definition SAMPLE_RATES : Rates :=
  [ ("USD", 1); ("EUR", 0.92); ("GBP", 0.78); ("JPY", 151.2);
    ("CAD", 1.37); ("AUD", 1.52); ("INR", 83.1) ]%string%Q.

(** [crossRate(base, quote)]; [None] is [null] *)
Definition crossRate (base quote : string) : option Q :=
  match lookup SAMPLE_RATES base, lookup SAMPLE_RATES quote with
  | Some baseUsd, Some quoteUsd =>
      if negb (truthy_number baseUsd) || negb (truthy_number quoteUsd)
      then None
      else Some (quoteUsd / baseUsd)%Q
  | _, _ => None
  end.

(** [range === "24H" ? 16 : range === "7D" ? 20 : range === "30D" ? 24 : 28] *)
Definition trendLength (range : RangeKey) : nat :=
  if RangeKey_eqb range Range24H then 16
  else if RangeKey_eqb range Range7D then 20
  else if RangeKey_eqb range Range30D then 24
  else 28.

(** [const s = (seed + 7) * (i + 11)] *)
Definition rand : Z -> Z -> Q := TrendGenerator.rand 7 11.

Definition makeTrend : RangeKey -> Z -> list Q :=
  TrendGenerator.makeTrend trendLength 7 11.

(** [list.find((r) => r.code === c)] used as a condition *)
Definition hasCode (list : list RowMeta) (c : string) : bool :=
  existsb (fun r => String.eqb (meta_code r) c) list.

(** [[...ROWS]] with the base and then the focus currency put in front
    when they are not listed *)
Definition gridList (baseCurrency focusCurrency : string) : list RowMeta :=
  let list := ROWS in
  let list :=
    if negb (hasCode list baseCurrency)
    then mkMeta baseCurrency baseCurrency "🌐" :: list else list in
  let list :=
    if negb (hasCode list focusCurrency)
    then mkMeta focusCurrency focusCurrency "🌐" :: list else list in
  list.

(** The callback of [.map((row, index) => { .. })] *)
Definition toRow (rates : Rates) (baseCurrency focusCurrency : string)
           (range : RangeKey) (inverse : bool)
           (row : RowMeta) (index : Z) : option TableRow :=
  let apiRate := lookup rates (meta_code row) in
  let fallbackRate := crossRate baseCurrency (meta_code row) in
  let rate := match apiRate with Some r => Some r | None => fallbackRate end in
  match rate with
  | None => None
  | Some rate =>
      let trend := makeTrend range (index + (if inverse then 10 else 0)) in
      Some {| code := meta_code row;
              name := meta_name row;
              flag := meta_flag row;
              rate := rate;
              changePct := changePctOf trend;
              values := trend;
              isFocus := String.eqb (meta_code row) focusCurrency |}
  end.

(** [const mapped = list.filter(..).map(..).filter(Boolean)]: the rows
    before they are sorted *)
Definition mapped (rates : Rates) (baseCurrency focusCurrency : string)
           (range : RangeKey) (inverse : bool) : list TableRow :=
  let list := gridList baseCurrency focusCurrency in
  filter_Boolean
    (mapi (toRow rates baseCurrency focusCurrency range inverse)
          (filter (fun row => negb (String.eqb (meta_code row) baseCurrency))
                  list)
          0).

(** The [useMemo] that builds [rows]. *)
Definition rows {C : Collator} (rates : Rates)
           (baseCurrency focusCurrency : string)
           (range : RangeKey) (inverse : bool) : list TableRow :=
  Array_sort rowCompare
             (mapped rates baseCurrency focusCurrency range inverse).

(** The codes that get a row: those with a rate in the snapshot or a
    sample cross rate from the base. *)
Definition resolvable (rates : Rates) (baseCurrency : string) (c : string)
  : bool :=
  match lookup rates c, crossRate baseCurrency c with
  | None, None => false
  | _, _ => true
  end.

End CurrencyChartsSection.

(** ** Exceptions, JSON values and the browser's services *)

(** The outcome of evaluating a block: it completes normally with a value
    or abruptly with a thrown error. *)
Inductive Completion (A : Type) : Type :=
| Normal (a : A)
| Throw (e : string).
Arguments Normal {A} a.
Arguments Throw {A} e.

Definition bind {A B : Type} (c : Completion A) (k : A -> Completion B)
  : Completion B :=
  match c with
  | Normal a => k a
  | Throw e => Throw e
  end.

Notation "x <- c ;; k" := (bind c (fun x => k))
  (at level 61, c at next level, right associativity).

(** [try { body } catch { handler }] *)
Definition tryCatch {A : Type} (body : Completion A)
           (handler : string -> Completion A) : Completion A :=
  match body with
  | Normal a => Normal a
  | Throw e => handler e
  end.

(** The values [JSON.parse] produces. *)
#[local] Set Warnings "-register-all".
Inductive Json : Type :=
| JNull
| JBool (b : bool)
| JNumber (x : Q)
| JString (s : string)
| JArray (items : list Json)
| JObject (members : list (string * Json)).

(** [Array.isArray(parsed) ? parsed : []] *)
Definition arrayOrEmpty (parsed : Json) : list Json :=
  match parsed with
  | JArray items => items
  | _ => []
  end.

(** The value of [Number(text)]. *)
Inductive JsNumber : Type :=
| NaN
| Infinity (negative : bool)
| Finite (x : Q).

(** The globals of the host the alert form calls: [JSON.parse], which
    throws a [SyntaxError] on text that is not JSON, [JSON.stringify] and
    [Number]. *)
Class Host : Type := {
  JSON_parse : string -> Completion Json;
  JSON_stringify : Json -> string;
  Number : string -> JsNumber
}.

(** The empty text is not a JSON document. *)
Class HostLaws (H : Host) : Prop := {
  JSON_parse_empty : exists e, JSON_parse "" = Throw e
}.

(** [localStorage]: the stored items, and whether the browser lets the
    page read and write them (a blocked access throws a [SecurityError], a
    write over quota a [QuotaExceededError]). *)
Record LocalStorage : Type := mkStorage {
  items : list (string * string);
  readable : bool;
  writable : bool
}.

(** [localStorage.getItem(key)]; [None] is [null] *)
Definition getItem (ls : LocalStorage) (key : string)
  : Completion (option string) :=
  if readable ls then Normal (lookup (items ls) key)
  else Throw "SecurityError".

(** [localStorage.setItem(key, value)] *)
Definition setItem (ls : LocalStorage) (key value : string)
  : Completion LocalStorage :=
  if writable ls
  then Normal {| items := (key, value) :: items ls;
                 readable := readable ls;
                 writable := writable ls |}
  else Throw "QuotaExceededError".

(** White space that [String.prototype.trim] removes, among the ASCII
    characters: TAB, LF, VT, FF, CR and the space.  The white space beyond
    ASCII that [trim] removes as well (the no-break space, the line
    separators) is not modelled: a [string] is a list of bytes. *)
Definition isWhiteSpace (c : ascii) : bool :=
  let n := nat_of_ascii c in
  (Nat.leb 9 n && Nat.leb n 13) || Nat.eqb n 32.

Fixpoint trimStart (s : string) : string :=
  match s with
  | EmptyString => EmptyString
  | String c s' => if isWhiteSpace c then trimStart s' else s
  end.

Fixpoint trimEnd (s : string) : string :=
  match s with
  | EmptyString => EmptyString
  | String c s' =>
      match trimEnd s' with
      | EmptyString => if isWhiteSpace c then EmptyString
                       else String c EmptyString
      | t => String c t
      end
  end.

(** [s.trim()] *)
Definition trim (s : string) : string := trimEnd (trimStart s).

(** [s.includes(sub)] *)
Fixpoint includes (s sub : string) : bool :=
  String.prefix sub s
  || match s with
     | EmptyString => false
     | String _ s' => includes s' sub
     end.

(** ** src/pages/GetAlertsSection.tsx *)
Module GetAlertsSection.

(** [type SavedAlert] *)
Record SavedAlert : Type := mkAlert {
  id : string;
  from : string;
  to : string;
  threshold : Q;
  email : string;
  createdAt : string;
  schedule : list string
}.

(** The object literal of a [SavedAlert] as a JSON value. *)
Definition alertObject (a : SavedAlert) : Json :=
  JObject
    [ ("id", JString (id a));
      ("from", JString (from a));
      ("to", JString (to a));
      ("threshold", JNumber (threshold a));
      ("email", JString (email a));
      ("createdAt", JString (createdAt a));
      ("schedule", JArray (map JString (schedule a))) ]%string.

Definition ALERTS_KEY : string := "fxflow-demo-alerts".

(** [loadAlerts()].  The result is whatever array was stored: the cast to
    [SavedAlert[]] checks nothing. *)
Definition loadAlerts {H : Host} (ls : LocalStorage)
  : Completion (list Json) :=
  tryCatch
    (raw <- getItem ls ALERTS_KEY ;;
     match raw with
     | None => Normal []
     | Some raw =>
         if negb (truthy_string raw) then Normal []
         else
           parsed <- JSON_parse raw ;;
           Normal (arrayOrEmpty parsed)
     end)
    (fun _ => Normal []).

(** [saveAlerts(alerts)]: the storage afterwards; a failed write is
    ignored. *)
Definition saveAlerts {H : Host} (ls : LocalStorage) (alerts : list Json)
  : Completion LocalStorage :=
  tryCatch
    (setItem ls ALERTS_KEY (JSON_stringify (JArray alerts)))
    (fun _ => Normal ls).

(** The props and the state of the component. *)
Record Props : Type := mkProps {
  fromCurrency : string;
  toCurrency : string
}.

Record State : Type := mkState {
  targetRate : string;
  emailInput : string;
  busy : bool;
  saved : bool;
  error : option string;
  existingAlerts : list Json
}.

Definition setError (st : State) (e : option string) : State :=
  {| targetRate := targetRate st; emailInput := emailInput st;
     busy := busy st; saved := saved st; error := e;
     existingAlerts := existingAlerts st |}.

(** [Number.isFinite(t)] and [t <= 0] *)
Definition isFinite (t : JsNumber) : bool :=
  match t with Finite _ => true | _ => false end.

Definition nonPositive (t : JsNumber) : bool :=
  match t with
  | NaN => false
  | Infinity negative => negative
  | Finite x => Qle_bool x 0
  end.

(** [validateForm()]: its result and the state it leaves. *)
Definition validateForm {H : Host} (p : Props) (st : State) : bool * State :=
  let st := setError st None in
  if negb (truthy_string (fromCurrency p))
     || negb (truthy_string (toCurrency p))
  then (false, setError st (Some "Please select both currencies."%string))
  else if String.eqb (fromCurrency p) (toCurrency p)
  then (false,
        setError st (Some "From and To currencies should be different."%string))
  else if negb (truthy_string (trim (targetRate st)))
  then (false, setError st (Some "Please enter a target rate."%string))
  else
    let t := Number (targetRate st) in
    if negb (isFinite t) || nonPositive t
    then (false,
          setError st (Some "Target rate must be a positive number."%string))
    else if negb (truthy_string (trim (emailInput st)))
    then (false,
          setError st (Some "Please enter an email for the alert."%string))
    else if negb (includes (emailInput st) "@")
            || negb (includes (emailInput st) ".")
    then (false,
          setError st (Some "Please enter a valid email address."%string))
    else (true, st).

(** What [Date.now()] and [new Date().toISOString()] give when the form is
    submitted, the former already rendered by the template literal. *)
Record Clock : Type := mkClock {
  Date_now : string;
  Date_toISOString : string
}.

(** The alert [handleSubmit] builds. *)
Definition newAlert {H : Host} (p : Props) (st : State) (clock : Clock)
  : SavedAlert :=
  {| id := Date_now clock;
     from := fromCurrency p;
     to := toCurrency p;
     threshold := match Number (targetRate st) with
                  | Finite t => t
                  | _ => 0
                  end;
     email := trim (emailInput st);
     createdAt := Date_toISOString clock;
     schedule := ["06:00"; "19:00"]%string |}.

(** [handleSubmit(e)]: the component state and the storage afterwards.
    Nothing in its [try] block throws ([saveAlerts] catches its own
    errors), so the [catch] branch is not taken. *)
Definition handleSubmit {H : Host} (p : Props) (clock : Clock)
           (st : State) (ls : LocalStorage) : State * LocalStorage :=
  let '(ok, st) := validateForm p st in
  if negb ok then (st, ls)
  else
    let alert := alertObject (newAlert p st clock) in
    let updated := alert :: existingAlerts st in
    let ls' := match saveAlerts ls updated with
               | Normal ls' => ls'
               | Throw _ => ls
               end in
    ({| targetRate := targetRate st; emailInput := emailInput st;
        busy := false; saved := true; error := error st;
        existingAlerts := updated |}, ls').

(** The checks [validateForm] makes before it looks at the email. *)
Definition earlierChecksPass {H : Host} (p : Props) (st : State) : Prop :=
  truthy_string (fromCurrency p) = true
  /\ truthy_string (toCurrency p) = true
  /\ String.eqb (fromCurrency p) (toCurrency p) = false
  /\ truthy_string (trim (targetRate st)) = true
  /\ isFinite (Number (targetRate st)) = true
  /\ nonPositive (Number (targetRate st)) = false.

End GetAlertsSection.

(** A host that reads the JSON texts [[null]] and [null] and the number
    [84.5] only, for the examples. *)
Definition exampleHost : Host :=
  {| JSON_parse := fun text =>
       if String.eqb text "[null]" then Normal (JArray [JNull])
       else if String.eqb text "null" then Normal JNull
       else Throw "SyntaxError";
     JSON_stringify := fun value =>
       match value with
       | JArray [] => "[]"
       | JArray _ => "[..]"
       | _ => "null"
       end%string;
     Number := fun text =>
       if String.eqb text "84.5" then Finite 84.5 else NaN |}.

(** A storage that holds the text [[null]] under the alerts key. *)
Definition exampleStorage : LocalStorage :=
  {| items := [(GetAlertsSection.ALERTS_KEY, "[null]"%string)];
     readable := true;
     writable := true |}.

(** The pair USD to INR, and a form with the target 84.5 and the email
    [a@.]. *)
Definition exampleProps : GetAlertsSection.Props :=
  GetAlertsSection.mkProps "USD" "INR".

Definition exampleForm : GetAlertsSection.State :=
  GetAlertsSection.mkState "84.5" "a@." false false None [].

(** ** The effect that fetches the rates

    [useEffect(() => { let cancelled = false; async function load() {..};
    load(); return () => { cancelled = true; }; }, [baseCurrency])] in both
    chart components.  Every run of the effect owns a [cancelled] variable
    and an asynchronous call that is suspended at [await fetch(..)] and at
    [await res.json()]; the event loop resumes the calls in any order.  The
    machine below has one transition per event the component reacts to. *)
Module RateFetch.

Inductive Component : Type := FullPage | Section.

(** Where the asynchronous call of a run of the effect stands. *)
Inductive Phase : Type :=
| AwaitFetch   (* suspended at [await fetch(url)] *)
| AwaitJson    (* suspended at [await res.json()] *)
| Settled.     (* returned *)

(** One run of the effect: its number, the [baseCurrency] it closed over,
    its [cancelled] variable and its call. *)
Record Effect : Type := mkEffect {
  eff_id : nat;
  eff_base : string;
  cancelled : bool;
  phase : Phase
}.

(** A call of [setRates]: the run that made it and the base currency it
    fetched for, the most recent run and the base currency of the
    component at that moment, and the value. *)
Record Write : Type := mkWrite {
  writer : nat;
  writer_base : string;
  latest : nat;
  latest_base : option string;
  written : option Rates
}.

Record State : Type := mkState {
  baseCurrency : option string;   (* the dependency of the last render *)
  effects : list Effect;          (* most recent first *)
  rates : option Rates;           (* [None] is [null] *)
  loading : bool;
  error : option string;
  writes : list Write             (* most recent first *)
}.

(** [useState] initial values: [null] on the full page, [{}] in the
    section. *)
Definition init (c : Component) : State :=
  {| baseCurrency := None;
     effects := [];
     rates := match c with FullPage => None | Section => Some [] end;
     loading := false;
     error := None;
     writes := [] |}.

Inductive Event : Type :=
| Render (base : string)                 (* a render with this base *)
| Unmount
| FetchResolved (id : nat) (ok : bool)   (* [fetch] resolved, [res.ok] *)
| FetchRejected (id : nat)
| JsonResolved (id : nat) (data_rates : option Rates)
| JsonRejected (id : nat).

Definition nextId (s : State) : nat := List.length (effects s).

Definition latestId (s : State) : nat := Nat.pred (nextId s).

Definition findEffect (s : State) (id : nat) : option Effect :=
  find (fun e => Nat.eqb (eff_id e) id) (effects s).

Definition setPhase (id : nat) (ph : Phase) (es : list Effect)
  : list Effect :=
  map (fun e => if Nat.eqb (eff_id e) id
                then mkEffect (eff_id e) (eff_base e) (cancelled e) ph
                else e) es.

(** The cleanup of the most recent run: [cancelled = true]. *)
Definition cleanup (es : list Effect) : list Effect :=
  match es with
  | [] => []
  | e :: es' => mkEffect (eff_id e) (eff_base e) true (phase e) :: es'
  end.

(** [setRates(r)] called by the run [id], which closed over [base]. *)
Definition setRates (id : nat) (base : string) (r : option Rates)
           (s : State) : State :=
  {| baseCurrency := baseCurrency s;
     effects := effects s;
     rates := r;
     loading := loading s;
     error := error s;
     writes := mkWrite id base (latestId s) (baseCurrency s) r :: writes s |}.

Definition setLoading (b : bool) (s : State) : State :=
  {| baseCurrency := baseCurrency s; effects := effects s;
     rates := rates s; loading := b; error := error s;
     writes := writes s |}.

Definition setError (e : option string) (s : State) : State :=
  {| baseCurrency := baseCurrency s; effects := effects s;
     rates := rates s; loading := loading s; error := e;
     writes := writes s |}.

Definition withEffects (es : list Effect) (s : State) : State :=
  {| baseCurrency := baseCurrency s; effects := es;
     rates := rates s; loading := loading s; error := error s;
     writes := writes s |}.

(** [Array.from(new Set(ROWS.map((r) => r.code).filter((code) => code !==
    baseCurrency)))]; the codes of [ROWS] are distinct already. *)
Definition targets (base : string) : list string :=
  nodup string_dec
    (filter (fun code => negb (String.eqb code base))
            (map CurrencyChartsSection.meta_code CurrencyChartsSection.ROWS)).

(** The section's fallback: [ROWS.forEach(({ code }) => { if (code ===
    baseCurrency) return; const r = crossRate(baseCurrency, code);
    if (r != null) fallback[code] = r; })] *)
Definition fallbackRates (base : string) : Rates :=
  fold_left
    (fun fallback row =>
       let code := CurrencyChartsSection.meta_code row in
       if String.eqb code base then fallback
       else match CurrencyChartsSection.crossRate base code with
            | Some r => fallback ++ [(code, r)]
            | None => fallback
            end)
    CurrencyChartsSection.ROWS [].

(** The effect body up to its first [await]: the run [id] starts. *)
Definition start (c : Component) (base : string) (s : State) : State :=
  let id := nextId s in
  let run ph := withEffects (mkEffect id base false ph :: effects s) s in
  match c with
  | FullPage =>
      if negb (truthy_string base) then run Settled
      else setError None (setLoading true (run AwaitFetch))
  | Section =>
      let s := setError None (setLoading true (run AwaitFetch)) in
      match targets base with
      | [] =>
          (* [setRates({}); return;] and then the [finally] block *)
          setLoading false
            (setRates id base (Some [])
               (withEffects (setPhase id Settled (effects s)) s))
      | _ => s
      end
  end.

(** [finally { if (!cancelled) setLoading(false); }] for a run that is not
    cancelled, and the call returns. *)
Definition settle (id : nat) (s : State) : State :=
  setLoading false (withEffects (setPhase id Settled (effects s)) s).

(** The [catch] block of run [e], entered from either [await]. *)
Definition catchBlock (c : Component) (e : Effect) (s : State) : State :=
  if cancelled e
  then withEffects (setPhase (eff_id e) Settled (effects s)) s
  else
    match c with
    | FullPage =>
        settle (eff_id e)
          (setRates (eff_id e) (eff_base e) None
             (setError
                (Some "Could not load live FX rates. Please try again."%string)
                s))
    | Section =>
        settle (eff_id e)
          (setRates (eff_id e) (eff_base e)
             (Some (fallbackRates (eff_base e)))
             (setError
                (Some "Using sample rates (FX API unavailable)."%string)
                s))
    end.

(** The code after [await res.json()]: [if (cancelled) return;
    setRates(data.rates)] (the section: [data.rates || {}]). *)
Definition applyData (c : Component) (e : Effect)
           (data_rates : option Rates) (s : State) : State :=
  if cancelled e
  then withEffects (setPhase (eff_id e) Settled (effects s)) s
  else
    let r := match c with
             | FullPage => data_rates
             | Section => match data_rates with
                          | Some r => Some r
                          | None => Some []
                          end
             end in
    settle (eff_id e) (setRates (eff_id e) (eff_base e) r s).

Definition inPhase (ph : Phase) (e : Effect) : bool :=
  match ph, phase e with
  | AwaitFetch, AwaitFetch | AwaitJson, AwaitJson | Settled, Settled => true
  | _, _ => false
  end.

(** One turn of the event loop. *)
Definition step (c : Component) (s : State) (ev : Event) : State :=
  match ev with
  | Render base =>
      (* the effect runs again only when its dependency changed *)
      match baseCurrency s with
      | Some b =>
          if String.eqb b base then s
          else
            let s := withEffects (cleanup (effects s)) s in
            start c base
              {| baseCurrency := Some base; effects := effects s;
                 rates := rates s; loading := loading s;
                 error := error s; writes := writes s |}
      | None =>
          start c base
            {| baseCurrency := Some base; effects := effects s;
               rates := rates s; loading := loading s;
               error := error s; writes := writes s |}
      end
  | Unmount => withEffects (cleanup (effects s)) s
  | FetchResolved id ok =>
      match findEffect s id with
      | Some e =>
          if inPhase AwaitFetch e
          then if ok
               then withEffects (setPhase id AwaitJson (effects s)) s
               else catchBlock c e s   (* [throw new Error(..)] *)
          else s
      | None => s
      end
  | FetchRejected id =>
      match findEffect s id with
      | Some e => if inPhase AwaitFetch e then catchBlock c e s else s
      | None => s
      end
  | JsonResolved id data_rates =>
      match findEffect s id with
      | Some e => if inPhase AwaitJson e then applyData c e data_rates s else s
      | None => s
      end
  | JsonRejected id =>
      match findEffect s id with
      | Some e => if inPhase AwaitJson e then catchBlock c e s else s
      | None => s
      end
  end.

(** The state after a sequence of events. *)
Definition run (c : Component) (evs : list Event) : State :=
  fold_left (step c) evs (init c).

(** All runs but the most recent one are cancelled; the most recent one
    carries the last number given out and the base of the last render. *)
Definition staleCancelled (s : State) : Prop :=
  match effects s with
  | [] => True
  | e :: es =>
      eff_id e = List.length es
      /\ baseCurrency s = Some (eff_base e)
      /\ Forall (fun e' => cancelled e' = true) es
  end.

(** A write is by the current run when the run that made it was the most
    recent one, fetching for the base currency of the component. *)
Definition current (w : Write) : Prop :=
  writer w = latest w /\ latest_base w = Some (writer_base w).

(** The invariant of the machine. *)
Definition Inv (s : State) : Prop :=
  staleCancelled s /\ Forall current (writes s).

End RateFetch.

(** ** Further vocabulary for the properties *)

(** [q] to the power [n]. *)
Fixpoint pow (q : Q) (n : nat) : Q :=
  match n with
  | O => 1
  | S n' => q * pow q n'
  end.




(** ** The sparkline of both chart components

    [function Sparkline({ values, positive })].  The two copies differ in
    the size of the drawing: 80 by 26 in the section, 90 by 30 on the full
    page.  A point is kept as the pair of numbers that
    [`${x.toFixed(1)},${y.toFixed(1)}`] prints. *)
Module Sparkline.

(** [Number(x.toFixed(1))]: the nearest multiple of 1/10, ties away from
    zero.  The source rounds the double that holds [x]; where [x] is within
    the last bit of a tie, its result can be the other neighbouring
    multiple of 1/10. *)
Definition toFixed1 (x : Q) : Q :=
  if Qle_bool 0 x then inject_Z (roundHalfUp (x * 10)) / 10
  else - (inject_Z (roundHalfUp (- x * 10)) / 10).

(** [Math.min(a, b)] and [Math.max(a, b)] *)
Definition min2 (a b : Q) : Q := if Qle_bool a b then a else b.
Definition max2 (a b : Q) : Q := if Qle_bool a b then b else a.

(** What the component returns: [null], or the [polyline] with its stroke
    colour and its points. *)
Record Polyline : Type := mkPolyline {
  stroke : string;
  points : list (Q * Q)
}.

Section Drawing.
(** [const width = ..; const height = ..;] *)
Variables width height : Z.

(** The callback of [values.map((v, i) => ..)] *)
Definition point (len : nat) (min range : Q) (v : Q) (i : Z) : Q * Q :=
  let x := (inject_Z i / inject_Z (Z.max (Z.of_nat len - 1) 1)
            * inject_Z width)%Q in
  let y := (inject_Z height - (v - min) / range * (inject_Z height - 4) - 2)%Q in
  (toFixed1 x, toFixed1 y).

Definition render (values : list Q) (positive : bool) : option Polyline :=
  match values with
  | [] => None                                  (* [if (!values.length) return null] *)
  | v0 :: rest =>
      let min := fold_left min2 rest v0 in      (* [Math.min(...values)] *)
      let max := fold_left max2 rest v0 in      (* [Math.max(...values)] *)
      let range := if truthy_number (max - min) then (max - min)%Q else 1%Q in
      Some {| stroke := if positive then "#22c55e" else "#ef4444";
              points := mapi (point (List.length values) min range) values 0 |}
  end.
End Drawing.

(** The copy of the section and the copy of the full page. *)
Definition ofSection : list Q -> bool -> option Polyline := render 80 26.
Definition ofFullPage : list Q -> bool -> option Polyline := render 90 30.

(** A point is inside the drawing when it is within the width and keeps
    the margin of 2 from the top and from the bottom. *)
Definition inside (width height : Z) (p : Q * Q) : Prop :=
  (0 <= fst p /\ fst p <= inject_Z width
   /\ 2 <= snd p /\ snd p <= inject_Z height - 2)%Q.

End Sparkline.

(** A host whose [JSON.stringify] and [JSON.parse] agree on the empty
    array, on the array [[null]] and on [null], for the examples. *)
Definition printingHost : Host :=
  {| JSON_parse := fun text =>
       if String.eqb text "[null]" then Normal (JArray [JNull])
       else if String.eqb text "[]" then Normal (JArray [])
       else if String.eqb text "null" then Normal JNull
       else Throw "SyntaxError";
     JSON_stringify := fun value =>
       match value with
       | JArray [] => "[]"
       | JArray [JNull] => "[null]"
       | _ => "null"
       end%string;
     Number := fun text =>
       if String.eqb text "84.5" then Finite 84.5 else NaN |}.

(** A form that fails the last check: the email has no dot. *)
Definition exampleBadForm : GetAlertsSection.State :=
  GetAlertsSection.mkState "84.5" "a@b" false false None [].

(** A moment at which the form is submitted. *)
Definition exampleClock : GetAlertsSection.Clock :=
  GetAlertsSection.mkClock "1700000000000" "2023-11-14T22:13:20.000Z".

(** A storage that refuses every write. *)
Definition fullStorage : LocalStorage :=
  {| items := []; readable := true; writable := false |}.

(** An event that settles a call of a run other than the run [latest]. *)
Definition settlesOther (latest : nat) (ev : RateFetch.Event) : Prop :=
  match ev with
  | RateFetch.FetchResolved id _ | RateFetch.FetchRejected id
  | RateFetch.JsonResolved id _ | RateFetch.JsonRejected id => id <> latest
  | RateFetch.Render _ | RateFetch.Unmount => False
  end.

(** The run [latest], which fetches for [base], is the most recent one,
    is not cancelled and stands at [ph]; the runs before it are cancelled;
    the component shows that it is loading and no error. *)
Definition pending (ph : RateFetch.Phase) (latest : nat) (base : string)
           (s : RateFetch.State) : Prop :=
  exists older,
    RateFetch.effects s = RateFetch.mkEffect latest base false ph :: older
    /\ Forall (fun e => RateFetch.cancelled e = true) older
    /\ RateFetch.loading s = true
    /\ RateFetch.error s = None.

(** The ways the call of the run [latest] fails: the fetch is rejected, the
    response is not ok, or the body cannot be read (while calls of older
    runs settle in between). *)
Definition fails (latest : nat) (evs : list RateFetch.Event) : Prop :=
  evs = [RateFetch.FetchRejected latest]
  \/ evs = [RateFetch.FetchResolved latest false]
  \/ exists between,
       Forall (settlesOther latest) between
       /\ evs = RateFetch.FetchResolved latest true
                  :: between ++ [RateFetch.JsonRejected latest].

(** ** src/pages/components/CurrencyDropdown.tsx

    The list of currencies the chart components and the alert form choose
    from. *)

(** [String.prototype.toLowerCase] is supplied by the host. *)
Class Casing : Type := toLowerCase : string -> string.

(** Lower case of the ASCII letters, which is what [toLowerCase] does on
    ASCII text. *)
Definition asciiLower (c : ascii) : ascii :=
  let n := nat_of_ascii c in
  if Nat.leb 65 n && Nat.leb n 90 then ascii_of_nat (n + 32) else c.

Fixpoint asciiLowerCase (s : string) : string :=
  match s with
  | EmptyString => EmptyString
  | String c s' => String (asciiLower c) (asciiLowerCase s')
  end.

#[export] Instance asciiCasing : Casing := asciiLowerCase.

Module CurrencyDropdown.

(** [type CurrencyMeta]; [flagClass = None] is an absent or [undefined]
    field. *)
Record CurrencyMeta : Type := mkCurrency {
  code : string;
  name : string;
  flagClass : option string
}.

Definition FALLBACK_CURRENCIES : list CurrencyMeta :=
  [ mkCurrency "USD" "US Dollar" None;
    mkCurrency "EUR" "Euro" None;
    mkCurrency "GBP" "British Pound" None;
    mkCurrency "INR" "Indian Rupee" None;
    mkCurrency "JPY" "Japanese Yen" None;
    mkCurrency "AUD" "Australian Dollar" None;
    mkCurrency "CAD" "Canadian Dollar" None;
    mkCurrency "CHF" "Swiss Franc" None;
    mkCurrency "CNY" "Chinese Yuan" None;
    mkCurrency "SGD" "Singapore Dollar" None ]%string.

Definition CURRENCY_TO_COUNTRY : list (string * string) :=
  [ ("USD", "us"); ("EUR", "eu"); ("GBP", "gb"); ("INR", "in");
    ("JPY", "jp"); ("AUD", "au"); ("CAD", "ca"); ("CHF", "ch");
    ("CNY", "cn"); ("SGD", "sg"); ("HKD", "hk"); ("NZD", "nz");
    ("SEK", "se"); ("NOK", "no"); ("DKK", "dk"); ("ZAR", "za");
    ("BRL", "br"); ("MXN", "mx"); ("RUB", "ru"); ("KRW", "kr");
    ("TRY", "tr"); ("SAR", "sa"); ("AED", "ae") ]%string.

(** [getFlagClass(code)]: [country ? `fi fi-${country}` : undefined] *)
Definition getFlagClass (code : string) : option string :=
  match lookup CURRENCY_TO_COUNTRY code with
  | Some country =>
      if truthy_string country then Some ("fi fi-" ++ country)%string
      else None
  | None => None
  end.

(** The list [fetchCurrencies] sets from the response [data]:
    [Object.entries(data).map(([code, name]) => ({ code, name, flagClass:
    getFlagClass(code) }))], sorted with
    [(a, b) => a.code.localeCompare(b.code)]. *)
Definition apiCurrencies {C : Collator} (data : list (string * string))
  : list CurrencyMeta :=
  let next :=
    map (fun entry => mkCurrency (fst entry) (snd entry)
                                 (getFlagClass (fst entry))) data in
  Array_sort (fun a b => localeCompare (code a) (code b)) next.

(** The list [fetchCurrencies] sets when the request fails. *)
Definition fallbackCurrencies : list CurrencyMeta :=
  map (fun c => mkCurrency (code c) (name c) (getFlagClass (code c)))
      FALLBACK_CURRENCIES.

(** The [useMemo] that builds [filtered]. *)
Definition filtered {K : Casing} (currencies : list CurrencyMeta)
           (search : string) : list CurrencyMeta :=
  let q := toLowerCase (trim search) in
  if negb (truthy_string q) then currencies
  else
    filter (fun c => includes (toLowerCase (code c)) q
                     || includes (toLowerCase (name c)) q)
           currencies.

(** [currencies.find((c) => c.code === value) ?? null] *)
Definition selected (currencies : list CurrencyMeta) (value : string)
  : option CurrencyMeta :=
  find (fun c => String.eqb (code c) value) currencies.

End CurrencyDropdown.

(** ** The domain on which the embedding agrees with the source *)

(** The names of the members every object inherits from
    [Object.prototype]: [o[key]] finds a function under each of them on any
    object literal and on any object that [JSON.parse] builds. *)
Definition Object_prototype_names : list string :=
  [ "constructor"; "hasOwnProperty"; "isPrototypeOf";
    "propertyIsEnumerable"; "toLocaleString"; "toString"; "valueOf";
    "__proto__"; "__defineGetter__"; "__defineSetter__";
    "__lookupGetter__"; "__lookupSetter__" ]%string.

Definition inherited (key : string) : bool :=
  existsb (String.eqb key) Object_prototype_names.

(** [key] names no inherited member, so that [o[key]] is [lookup o key];
    every currency code, and the empty string, is such a key. *)
Definition plainKey (key : string) : Prop := inherited key = false.

(** [Number.MAX_SAFE_INTEGER]: the integers up to it are numbers of the
    language, and a sum or a product that stays within it is exact. *)
Definition MAX_SAFE_INTEGER : Z := 2 ^ 53 - 1.

(** A seed is safe when it is at most 2^32 in absolute value: every
    integer that [makeTrend] computes from it, at any of its at most 30
    steps, is then within [MAX_SAFE_INTEGER] (lemma [safeSeed_exact]), and
    [Z] computes what the source computes. *)
Definition safeSeed (seed : Z) : Prop := - 2 ^ 32 <= seed <= 2 ^ 32.

(** A value is safe when it is at most [MAX_SAFE_INTEGER] in absolute
    value: the differences and quotients that [Sparkline] takes of such
    values are finite. *)
Definition safeNumber (v : Q) : Prop :=
  (- inject_Z MAX_SAFE_INTEGER <= v /\ v <= inject_Z MAX_SAFE_INTEGER)%Q.

(** ** The tables over any trend generator

    The callbacks of the two [useMemo]s with the function they call as
    [makeTrend] left open, to state at which arguments the tables call
    it. *)
Module TrendCalls.
Section Generator.
Variable makeTrend : RangeKey -> Z -> list Q.

(** The body of [codes.forEach((code, index) => { .. })] of the full
    page *)
Definition pushRowWith (rates : Rates) (baseCurrency focusCurrency : string)
           (range : RangeKey) (inverse : bool)
           (result : list TableRow) (code : string) (index : Z)
  : list TableRow :=
  if String.eqb code baseCurrency then result
  else
    match lookup rates code with
    | None => result
    | Some baseToQuote =>
        if negb (truthy_number baseToQuote) then result
        else
          let trend := makeTrend range (index + (if inverse then 20 else 0)) in
          result ++
            [ {| code := code;
                 name := CurrencyChartsFullPage.getName code;
                 flag := match lookup CurrencyChartsFullPage.FLAGS code with
                         | Some f => f
                         | None => "🌐"%string
                         end;
                 rate := baseToQuote;
                 changePct := changePctOf trend;
                 values := trend;
                 isFocus := String.eqb code focusCurrency |} ]
    end.

(** The [useMemo] of the full page, for a snapshot that is not [null] *)
Definition fullPageRowsWith {C : Collator} (rates : Rates)
           (baseCurrency focusCurrency : string)
           (range : RangeKey) (inverse : bool) : list TableRow :=
  let codes :=
    CurrencyChartsFullPage.candidateCodes rates baseCurrency focusCurrency in
  Array_sort rowCompare
    (forEach (pushRowWith rates baseCurrency focusCurrency range inverse)
             codes 0 []).

(** The callback of [.map((row, index) => { .. })] of the section *)
Definition toRowWith (rates : Rates) (baseCurrency focusCurrency : string)
           (range : RangeKey) (inverse : bool)
           (row : CurrencyChartsSection.RowMeta) (index : Z)
  : option TableRow :=
  let apiRate := lookup rates (CurrencyChartsSection.meta_code row) in
  let fallbackRate :=
    CurrencyChartsSection.crossRate baseCurrency
                                    (CurrencyChartsSection.meta_code row) in
  let rate := match apiRate with Some r => Some r | None => fallbackRate end in
  match rate with
  | None => None
  | Some rate =>
      let trend := makeTrend range (index + (if inverse then 10 else 0)) in
      Some {| code := CurrencyChartsSection.meta_code row;
              name := CurrencyChartsSection.meta_name row;
              flag := CurrencyChartsSection.meta_flag row;
              rate := rate;
              changePct := changePctOf trend;
              values := trend;
              isFocus := String.eqb (CurrencyChartsSection.meta_code row)
                                    focusCurrency |}
  end.

(** The [useMemo] of the section *)
Definition sectionRowsWith {C : Collator} (rates : Rates)
           (baseCurrency focusCurrency : string)
           (range : RangeKey) (inverse : bool) : list TableRow :=
  let list := CurrencyChartsSection.gridList baseCurrency focusCurrency in
  Array_sort rowCompare
    (filter_Boolean
       (mapi (toRowWith rates baseCurrency focusCurrency range inverse)
             (filter (fun row =>
                        negb (String.eqb (CurrencyChartsSection.meta_code row)
                                         baseCurrency))
                     list)
             0)).
End Generator.
End TrendCalls.

(** A generator that answers with the empty trend outside the seeds from 0
    to [bound] and as [makeTrend] does on them. *)
Definition onlySeedsUpTo (bound : Z) (makeTrend : RangeKey -> Z -> list Q)
  : RangeKey -> Z -> list Q :=
  fun range seed =>
    if (0 <=? seed) && (seed <=? bound) then makeTrend range seed else [].

(** * Properties *)

(** ** The trend generator *)
Section WalkFacts.
Variable length : RangeKey -> nat.
Variables seedShift indexShift : Z.

Let hash := TrendGenerator.hash seedShift indexShift.
Let rand := TrendGenerator.rand seedShift indexShift.
Let step := TrendGenerator.step seedShift indexShift.
Let loop := TrendGenerator.loop seedShift indexShift.

(** The remainder keeps the sign of the dividend, so the hash ranges over
    both signs. *)
Lemma hash_bounds (seed i : Z) : -233280 < hash seed i < 233280.
Proof.
  unfold hash, TrendGenerator.hash. cbv zeta.
  set (x := (seed + seedShift) * (i + indexShift) * 9301 + 49297).
  pose proof (Z.rem_bound_abs x 233280 ltac:(lia)) as Habs.
  revert Habs. generalize (Z.rem x 233280). intros r Habs. lia.
Qed.


Lemma rand_of_hash (seed i : Z) :
  rand seed i = (inject_Z (hash seed i) * (1 # 233280) * 2 - 1)%Q.
Proof. reflexivity. Qed.

Lemma inject_Z_between (lo hi h : Z) :
  lo <= h < hi -> (inject_Z lo <= inject_Z h /\ inject_Z h < inject_Z hi)%Q.
Proof.
  intros [Hlo Hhi]. split.
  - rewrite <- Zle_Qle. exact Hlo.
  - rewrite <- Zlt_Qlt. exact Hhi.
Qed.

(** Whatever the seed, the value stays above -3 and below 1. *)
Lemma rand_bounds (seed i : Z) : (-3 < rand seed i /\ rand seed i < 1)%Q.
Proof.
  rewrite rand_of_hash.
  destruct (inject_Z_between (-233279) 233280 (hash seed i)) as [Hlo Hhi].
  { pose proof (hash_bounds seed i). lia. }
  revert Hlo Hhi. generalize (inject_Z (hash seed i)). intros q Hlo Hhi.
  change (inject_Z (-233279)) with (-233279)%Q in Hlo.
  change (inject_Z 233280) with 233280%Q in Hhi.
  split; lra.
Qed.




Lemma step_snd range seed i st :
  snd (step range seed i st) = snd st ++ [fst (step range seed i st)].
Proof. destruct st as [v vals]. reflexivity. Qed.

Lemma loop_length range seed n :
  forall i st,
    List.length (snd (loop range seed n i st))
    = (List.length (snd st) + n)%nat.
Proof.
  induction n as [|n IH]; intros i st; simpl.
  - lia.
  - unfold loop in IH. rewrite IH. fold step.
    rewrite step_snd, length_app. simpl. lia.
Qed.


Lemma makeTrend_length range seed :
  List.length (TrendGenerator.makeTrend length seedShift indexShift range seed)
  = length range.
Proof.
  unfold TrendGenerator.makeTrend. fold loop. rewrite loop_length. reflexivity.
Qed.

End WalkFacts.

(** Under [safeSeed] every integer that [rand] computes at one of the
    first 30 steps is a safe integer, in both copies: the sum
    [seed + a], the product [s] and [s * 9301 + 49297]. *)
Lemma safeSeed_exact (a b seed i : Z) :
  (a = 7 /\ b = 11) \/ (a = 11 /\ b = 17) ->
  safeSeed seed -> 0 <= i < 30 ->
  let s := (seed + a) * (i + b) in
  Z.abs (seed + a) <= MAX_SAFE_INTEGER
  /\ Z.abs s <= MAX_SAFE_INTEGER
  /\ Z.abs (s * 9301) <= MAX_SAFE_INTEGER
  /\ Z.abs (s * 9301 + 49297) <= MAX_SAFE_INTEGER.
Proof.
  unfold safeSeed, MAX_SAFE_INTEGER.
  change (2 ^ 32) with 4294967296. change (2 ^ 53 - 1) with 9007199254740991.
  intros Hab [Hlo Hhi] Hi. cbv zeta.
  assert (Hb : 0 < i + b <= 46) by (destruct Hab as [[-> ->]|[-> ->]]; lia).
  assert (Ha : -4294967296 <= seed + a <= 4294967307)
    by (destruct Hab as [[-> ->]|[-> ->]]; lia).
  generalize dependent (seed + a). generalize dependent (i + b).
  intros y Hy x Hx.
  assert (H1 : -197568496122 <= x * y <= 197568496122) by nia.
  repeat split; lia.
Qed.



(** C4: the trend has as many values as the range fixes, whatever the seed:
    16 and 18 for 24H, 20 and 22 for 7D, 24 and 26 for 30D, 28 and 30 for 3M
    (section and full page), growing in that order; and the result is a
    function of (range, seed) alone. *)
Theorem trend_length_fixed_by_range (range : RangeKey) (seed : Z) :
  (List.length (CurrencyChartsSection.makeTrend range seed)
   = CurrencyChartsSection.trendLength range
   /\ List.length (CurrencyChartsFullPage.makeTrend range seed)
      = CurrencyChartsFullPage.trendLength range)
  /\ (lengthsWithin CurrencyChartsSection.trendLength
      /\ lengthsWithin CurrencyChartsFullPage.trendLength)
  /\ (forall range' seed',
        range' = range -> seed' = seed ->
        CurrencyChartsSection.makeTrend range' seed'
        = CurrencyChartsSection.makeTrend range seed
        /\ CurrencyChartsFullPage.makeTrend range' seed'
           = CurrencyChartsFullPage.makeTrend range seed).
Proof.
  split; [split; apply makeTrend_length|]. split.
  - split; cbv; repeat split; lia.
  - intros range' seed' -> ->. split; reflexivity.
Qed.


(** ** Sorting *)
Section SortFacts.
Context {A : Type} (compareFn : A -> A -> comparison).

Lemma insert_Permutation (x : A) (l : list A) :
  Permutation (insert compareFn x l) (x :: l).
Proof.
  induction l as [|y l IH]; simpl.
  - apply Permutation_refl.
  - destruct (compareFn x y); try apply Permutation_refl.
    eapply perm_trans; [apply perm_skip, IH | apply perm_swap].
Qed.

Lemma Array_sort_Permutation (l : list A) :
  Permutation (Array_sort compareFn l) l.
Proof.
  induction l as [|x l IH]; simpl.
  - apply perm_nil.
  - eapply perm_trans; [apply insert_Permutation | apply perm_skip, IH].
Qed.

Let notAfter := notAfter compareFn.

Hypothesis compare_flip :
  forall a b, compareFn a b = Gt -> notAfter b a.
Hypothesis notAfter_trans :
  forall a b c, notAfter a b -> notAfter b c -> notAfter a c.

Lemma insert_sorted (x : A) (l : list A) :
  StronglySorted notAfter l -> StronglySorted notAfter (insert compareFn x l).
Proof.
  induction 1 as [|y l Hl IH Hy]; simpl.
  - constructor; constructor.
  - destruct (compareFn x y) eqn:E.
    + constructor; [constructor; assumption|].
      assert (Hxy : notAfter x y) by (unfold notAfter; congruence).
      constructor; [exact Hxy|].
      eapply Forall_impl; [|exact Hy]. intros z Hz.
      eapply notAfter_trans; eassumption.
    + constructor; [constructor; assumption|].
      assert (Hxy : notAfter x y) by (unfold notAfter; congruence).
      constructor; [exact Hxy|].
      eapply Forall_impl; [|exact Hy]. intros z Hz.
      eapply notAfter_trans; eassumption.
    + constructor; [exact IH|].
      eapply Permutation_Forall.
      * apply Permutation_sym, insert_Permutation.
      * constructor; [apply compare_flip, E | exact Hy].
Qed.

Lemma Array_sort_sorted (l : list A) :
  StronglySorted notAfter (Array_sort compareFn l).
Proof.
  induction l as [|x l IH]; simpl.
  - constructor.
  - apply insert_sorted, IH.
Qed.
End SortFacts.

(** ** The order of the rows *)

Section RowOrder.
Context {C : Collator} {L : CollatorLaws C}.

Lemma localeCompare_refl (a : string) : localeCompare a a = Eq.
Proof.
  pose proof (localeCompare_antisym a a) as H.
  destruct (localeCompare a a); simpl in H; congruence.
Qed.

Lemma localeCompare_Gt_Lt (a b : string) :
  localeCompare a b = Gt -> localeCompare b a = Lt.
Proof. intros H. rewrite (localeCompare_antisym a b), H. reflexivity. Qed.

Lemma localeCompare_notAfter_trans (a b c : string) :
  localeCompare a b <> Gt -> localeCompare b c <> Gt ->
  localeCompare a c <> Gt.
Proof.
  intros Hab Hbc.
  destruct (localeCompare a b) eqn:Eab; try congruence.
  - apply localeCompare_eq in Eab. subst b. exact Hbc.
  - destruct (localeCompare b c) eqn:Ebc; try congruence.
    + apply localeCompare_eq in Ebc. subst c. congruence.
    + rewrite (localeCompare_trans a b c Eab Ebc). discriminate.
Qed.

Lemma rowCompare_flip (a b : TableRow) :
  rowCompare a b = Gt -> notAfter rowCompare b a.
Proof.
  unfold notAfter, rowCompare.
  destruct (isFocus a), (isFocus b); simpl; try congruence.
  - intros H. rewrite (localeCompare_Gt_Lt _ _ H). discriminate.
  - intros H. rewrite (localeCompare_Gt_Lt _ _ H). discriminate.
Qed.

Lemma rowCompare_notAfter_trans (a b c : TableRow) :
  notAfter rowCompare a b -> notAfter rowCompare b c ->
  notAfter rowCompare a c.
Proof.
  unfold notAfter, rowCompare.
  destruct (isFocus a), (isFocus b), (isFocus c); simpl;
    try congruence; apply localeCompare_notAfter_trans.
Qed.

Lemma rows_sorted (l : list TableRow) :
  StronglySorted (notAfter rowCompare) (Array_sort rowCompare l).
Proof.
  apply Array_sort_sorted.
  - exact rowCompare_flip.
  - exact rowCompare_notAfter_trans.
Qed.

(** In a sorted table with distinct codes the rows other than the focus
    row ascend strictly. *)
Lemma sorted_others_ascending (l : list TableRow) :
  StronglySorted (notAfter rowCompare) l ->
  NoDup (map code l) ->
  ascending (filter notFocus l).
Proof.
  unfold ascending.
  induction 1 as [|a l Hl IH Ha]; intros Hnd; simpl.
  - constructor.
  - inversion Hnd as [|? ? Hnotin Hnd']; subst.
    destruct (notFocus a) eqn:Ea; [|apply IH, Hnd'].
    constructor; [apply IH, Hnd'|].
    rewrite Forall_forall in *. intros b Hb.
    apply filter_In in Hb. destruct Hb as [Hb Eb].
    specialize (Ha b Hb). unfold notAfter, rowCompare in Ha.
    unfold notFocus in Ea, Eb.
    destruct (isFocus a); [discriminate|].
    destruct (isFocus b); [discriminate|]. simpl in Ha.
    destruct (localeCompare (code a) (code b)) eqn:E.
    + apply localeCompare_eq in E. exfalso. apply Hnotin.
      rewrite E. apply in_map, Hb.
    + reflexivity.
    + congruence.
Qed.
End RowOrder.

Lemma flagged_none (focusCurrency : string) (l : list TableRow) :
  flags focusCurrency l -> ~ In focusCurrency (map code l) ->
  filter isFocus l = [].
Proof.
  unfold flags. induction l as [|a l IH]; intros Hf Hnotin; [reflexivity|].
  inversion Hf as [|? ? Ha Hf']; subst. simpl. rewrite Ha.
  destruct (String.eqb (code a) focusCurrency) eqn:E.
  - apply String.eqb_eq in E. exfalso. apply Hnotin. left. exact E.
  - apply IH; [exact Hf'|]. intros Hc. apply Hnotin. right. exact Hc.
Qed.

(** With distinct codes, exactly one row is flagged when the focus code is
    among them. *)
Lemma flagged_once (focusCurrency : string) (l : list TableRow) :
  flags focusCurrency l -> NoDup (map code l) ->
  In focusCurrency (map code l) ->
  List.length (filter isFocus l) = 1%nat.
Proof.
  induction l as [|a l IH]; intros Hf Hnd Hin; simpl.
  - destruct Hin.
  - inversion Hf as [|? ? Ha Hf']; subst.
    inversion Hnd as [|? ? Hnotin Hnd']; subst.
    rewrite Ha. destruct (String.eqb (code a) focusCurrency) eqn:E.
    + apply String.eqb_eq in E. rewrite E in Hnotin.
      rewrite (flagged_none focusCurrency l Hf' Hnotin). reflexivity.
    + apply IH; try assumption.
      destruct Hin as [Hin | Hin]; [|exact Hin].
      apply String.eqb_neq in E. congruence.
Qed.

(** What sorting keeps: the rows, hence their codes, the flagging and the
    number of flagged rows. *)
Section SortedTable.
Context {C : Collator}.

Lemma sorted_codes (l : list TableRow) :
  Permutation (map code (Array_sort rowCompare l)) (map code l).
Proof. apply Permutation_map, Array_sort_Permutation. Qed.

Lemma sorted_Forall (P : TableRow -> Prop) (l : list TableRow) :
  Forall P l -> Forall P (Array_sort rowCompare l).
Proof.
  apply Permutation_Forall, Permutation_sym, Array_sort_Permutation.
Qed.

Lemma sorted_NoDup (l : list TableRow) :
  NoDup (map code l) -> NoDup (map code (Array_sort rowCompare l)).
Proof.
  apply Permutation_NoDup, Permutation_sym, sorted_codes.
Qed.
End SortedTable.

(** The focus row goes to the front whatever the collation: the comparator
    decides on the flags alone when they differ. *)
Section FocusFirst.
Context {C : Collator}.

Let plain (r : TableRow) : Prop := isFocus r = false.

Lemma filter_isFocus_nil (l : list TableRow) :
  filter isFocus l = [] -> Forall plain l.
Proof.
  induction l as [|a l IH]; simpl; [constructor|].
  destruct (isFocus a) eqn:E; [discriminate|].
  intros H. constructor; [exact E | apply IH, H].
Qed.

Lemma insert_tail_plain (x : TableRow) (out : list TableRow) :
  (isFocus x = true -> Forall plain out) ->
  Forall plain (tl out) ->
  Forall plain (tl (insert rowCompare x out)).
Proof.
  intros Hx Htl. destruct out as [|y t]; simpl; [constructor|].
  simpl in Htl.
  assert (Hy : rowCompare x y <> Gt -> plain y).
  { unfold plain, rowCompare. destruct (isFocus x) eqn:Ex.
    - intros _. specialize (Hx eq_refl). apply Forall_inv in Hx. exact Hx.
    - destruct (isFocus y); simpl; [congruence | reflexivity]. }
  destruct (rowCompare x y) eqn:E; simpl.
  - constructor; [apply Hy; discriminate | exact Htl].
  - constructor; [apply Hy; discriminate | exact Htl].
  - eapply Permutation_Forall;
      [apply Permutation_sym, insert_Permutation|].
    constructor; [|exact Htl].
    unfold plain. destruct (isFocus x) eqn:Ex; [|reflexivity].
    specialize (Hx eq_refl). apply Forall_inv in Hx.
    unfold rowCompare in E. unfold plain in Hx. rewrite Ex, Hx in E.
    discriminate.
Qed.

Lemma sort_tail_plain (l : list TableRow) :
  (List.length (filter isFocus l) <= 1)%nat ->
  Forall plain (tl (Array_sort rowCompare l)).
Proof.
  induction l as [|x l IH]; simpl; [constructor|].
  intros Hlen. apply insert_tail_plain.
  - intros Ex. rewrite Ex in Hlen. simpl in Hlen.
    apply (Permutation_Forall
             (Permutation_sym (Array_sort_Permutation rowCompare l))).
    apply filter_isFocus_nil.
    destruct (filter isFocus l); [reflexivity | simpl in Hlen; lia].
  - apply IH. destruct (isFocus x); simpl in Hlen; lia.
Qed.

(** With at most one flagged row among the rows, and one present, the
    sorted table starts with it. *)
Lemma sort_focus_first (l : list TableRow) :
  (List.length (filter isFocus l) <= 1)%nat ->
  Exists (fun r => isFocus r = true) l ->
  exists r rest, Array_sort rowCompare l = r :: rest /\ isFocus r = true.
Proof.
  intros Hlen Hex.
  pose proof (sort_tail_plain l Hlen) as Htl.
  assert (Hex' : Exists (fun r => isFocus r = true) (Array_sort rowCompare l)).
  { rewrite Exists_exists in *. destruct Hex as [r [Hin Hr]].
    exists r. split; [|exact Hr].
    eapply Permutation_in;
      [apply Permutation_sym, Array_sort_Permutation | exact Hin]. }
  destruct (Array_sort rowCompare l) as [|h t]; [inversion Hex'|].
  exists h, t. split; [reflexivity|].
  inversion Hex' as [? ? Hh | ? ? Ht]; subst; [exact Hh|].
  simpl in Htl. rewrite Exists_exists in Ht. destruct Ht as [r [Hin Hr]].
  rewrite Forall_forall in Htl. specialize (Htl r Hin).
  unfold plain in Htl. congruence.
Qed.
End FocusFirst.

(** ** The rows before sorting *)

Lemma lookup_Some_In {V : Type} (o : list (string * V)) (key : string) (v : V) :
  lookup o key = Some v -> In key (Object_keys o).
Proof.
  induction o as [|[k w] o IH]; simpl; [discriminate|].
  destruct (String.eqb k key) eqn:E.
  - apply String.eqb_eq in E. intros _. left. exact E.
  - intros H. right. apply IH, H.
Qed.

Lemma includes_code_false (codes : list string) (c : string) :
  includes_code codes c = false -> ~ In c codes.
Proof.
  unfold includes_code. intros H Hin.
  assert (Ht : existsb (String.eqb c) codes = true).
  { apply existsb_exists. exists c. split; [exact Hin | apply String.eqb_refl]. }
  congruence.
Qed.

Lemma forEach_invariant {A S : Type} (Inv : S -> Prop)
      (body : S -> A -> Z -> S) :
  (forall s x i, Inv s -> Inv (body s x i)) ->
  forall l i s, Inv s -> Inv (forEach body l i s).
Proof.
  intros Hbody. induction l as [|x l IH]; intros i s Hs; simpl.
  - exact Hs.
  - apply IH, Hbody, Hs.
Qed.

Lemma filter_Boolean_mapi_Forall {A B : Type} (P : B -> Prop)
      (f : A -> Z -> option B) :
  (forall x i r, f x i = Some r -> P r) ->
  forall l i, Forall P (filter_Boolean (mapi f l i)).
Proof.
  intros Hf. induction l as [|x l IH]; intros i; simpl.
  - constructor.
  - destruct (f x i) eqn:E; [constructor; [eapply Hf, E | apply IH] | apply IH].
Qed.

Module FullPageFacts.
Import CurrencyChartsFullPage.

Section Result.
Variables (rates : Rates) (baseCurrency focusCurrency : string)
          (range : RangeKey) (inverse : bool).

Let body := pushRow rates baseCurrency focusCurrency range inverse.

Lemma pushRow_codes (result : list TableRow) (c : string) (index : Z) :
  map code (body result c index)
  = map code result ++ (if kept rates baseCurrency c then [c] else []).
Proof.
  unfold body, pushRow, kept.
  destruct (String.eqb c baseCurrency); simpl; [now rewrite app_nil_r|].
  destruct (lookup rates c) as [q|]; [|now rewrite app_nil_r].
  destruct (truthy_number q); simpl; [|now rewrite app_nil_r].
  rewrite map_app. reflexivity.
Qed.

Lemma result_codes (codes : list string) :
  forall index result,
    map code (forEach body codes index result)
    = map code result ++ filter (kept rates baseCurrency) codes.
Proof.
  induction codes as [|c codes IH]; intros index result; simpl.
  - now rewrite app_nil_r.
  - rewrite IH, pushRow_codes, <- app_assoc.
    destruct (kept rates baseCurrency c); reflexivity.
Qed.

Lemma result_rows (codes : list string) (index : Z) :
  Forall (rowOk rates baseCurrency focusCurrency)
         (forEach body codes index []).
Proof.
  apply forEach_invariant; [|constructor].
  intros s c i Hs. unfold body, pushRow.
  destruct (String.eqb c baseCurrency) eqn:Eb; [exact Hs|].
  destruct (lookup rates c) as [q|] eqn:El; [|exact Hs].
  destruct (truthy_number q); simpl; [|exact Hs].
  apply Forall_app. split; [exact Hs|].
  constructor; [|constructor]. unfold rowOk. simpl.
  apply String.eqb_neq in Eb. auto.
Qed.

Lemma candidateCodes_NoDup :
  wellFormed rates ->
  NoDup (candidateCodes rates baseCurrency focusCurrency).
Proof.
  unfold wellFormed, candidateCodes. intros Hwf.
  destruct (truthy_string focusCurrency
            && negb (String.eqb focusCurrency baseCurrency)); simpl;
    [|exact Hwf].
  destruct (includes_code (Object_keys rates) focusCurrency) eqn:E; simpl;
    [exact Hwf|].
  constructor; [apply includes_code_false, E | exact Hwf].
Qed.

Lemma candidateCodes_keys (c : string) :
  In c (Object_keys rates) ->
  In c (candidateCodes rates baseCurrency focusCurrency).
Proof.
  unfold candidateCodes. intros Hin.
  destruct (truthy_string focusCurrency
            && negb (String.eqb focusCurrency baseCurrency)
            && negb (includes_code (Object_keys rates) focusCurrency));
    [right|]; exact Hin.
Qed.
End Result.
End FullPageFacts.

Module SectionFacts.
Import CurrencyChartsSection.

Section Mapped.
Variables (rates : Rates) (baseCurrency focusCurrency : string)
          (range : RangeKey) (inverse : bool).

Let f := toRow rates baseCurrency focusCurrency range inverse.
Let resolvable := resolvable rates baseCurrency.
Let mapped := mapped rates baseCurrency focusCurrency range inverse.

Lemma toRow_Some (row : RowMeta) (index : Z) :
  resolvable (meta_code row) = true ->
  exists r, f row index = Some r /\ code r = meta_code row.
Proof.
  unfold resolvable, CurrencyChartsSection.resolvable, f, toRow.
  destruct (lookup rates (meta_code row));
    [intros _; eexists; split; reflexivity|].
  destruct (crossRate baseCurrency (meta_code row));
    [intros _; eexists; split; reflexivity | discriminate].
Qed.

Lemma toRow_None (row : RowMeta) (index : Z) :
  resolvable (meta_code row) = false -> f row index = None.
Proof.
  unfold resolvable, CurrencyChartsSection.resolvable, f, toRow.
  destruct (lookup rates (meta_code row)); [discriminate|].
  destruct (crossRate baseCurrency (meta_code row));
    [discriminate | reflexivity].
Qed.

Lemma toRow_code (row : RowMeta) (index : Z) (r : TableRow) :
  f row index = Some r ->
  code r = meta_code row
  /\ isFocus r = String.eqb (code r) focusCurrency.
Proof.
  unfold f, toRow.
  destruct (lookup rates (meta_code row));
    [intros H; injection H as <-; split; reflexivity|].
  destruct (crossRate baseCurrency (meta_code row));
    [intros H; injection H as <-; split; reflexivity | discriminate].
Qed.

Lemma mapped_codes (l : list RowMeta) :
  forall index,
    map code (filter_Boolean (mapi f l index))
    = filter resolvable (map meta_code l).
Proof.
  induction l as [|row l IH]; intros index; simpl; [reflexivity|].
  destruct (resolvable (meta_code row)) eqn:E.
  - destruct (toRow_Some row index E) as [r [-> Hr]]. simpl.
    rewrite Hr, IH. reflexivity.
  - rewrite (toRow_None row index E). apply IH.
Qed.

Lemma hasCode_false (l : list RowMeta) (c : string) :
  hasCode l c = false -> ~ In c (map meta_code l).
Proof.
  unfold hasCode. intros H Hin.
  assert (Ht : existsb (fun r => String.eqb (meta_code r) c) l = true).
  { apply in_map_iff in Hin. destruct Hin as [r [Hr Hin]].
    apply existsb_exists. exists r. split; [exact Hin|].
    rewrite Hr. apply String.eqb_refl. }
  congruence.
Qed.

Lemma hasCode_true (l : list RowMeta) (c : string) :
  hasCode l c = true -> In c (map meta_code l).
Proof.
  unfold hasCode. intros H. apply existsb_exists in H.
  destruct H as [r [Hin Hr]]. apply String.eqb_eq in Hr.
  apply in_map_iff. exists r. split; assumption.
Qed.

Lemma ROWS_NoDup : NoDup (map meta_code ROWS).
Proof.
  repeat constructor; simpl; intuition discriminate.
Qed.

Lemma gridList_NoDup :
  NoDup (map meta_code (gridList baseCurrency focusCurrency)).
Proof.
  unfold gridList. cbv zeta.
  assert (H1 : NoDup (map meta_code
            (if negb (hasCode ROWS baseCurrency)
             then mkMeta baseCurrency baseCurrency "🌐" :: ROWS
             else ROWS))).
  { destruct (hasCode ROWS baseCurrency) eqn:E; simpl negb; cbv iota.
    - exact ROWS_NoDup.
    - constructor; [apply hasCode_false, E | exact ROWS_NoDup]. }
  revert H1.
  generalize (if negb (hasCode ROWS baseCurrency)
              then mkMeta baseCurrency baseCurrency "🌐" :: ROWS
              else ROWS).
  intros l Hl. destruct (hasCode l focusCurrency) eqn:E; simpl negb; cbv iota.
  - exact Hl.
  - constructor; [apply hasCode_false, E | exact Hl].
Qed.

Lemma gridList_focus :
  In focusCurrency (map meta_code (gridList baseCurrency focusCurrency)).
Proof.
  unfold gridList. cbv zeta.
  generalize (if negb (hasCode ROWS baseCurrency)
              then mkMeta baseCurrency baseCurrency "🌐" :: ROWS
              else ROWS).
  intros l. destruct (hasCode l focusCurrency) eqn:E; simpl negb; cbv iota.
  - apply hasCode_true, E.
  - left. reflexivity.
Qed.

Lemma gridList_ROWS (c : string) :
  In c (map meta_code ROWS) ->
  In c (map meta_code (gridList baseCurrency focusCurrency)).
Proof.
  unfold gridList. cbv zeta. intros Hin.
  assert (H1 : In c (map meta_code
            (if negb (hasCode ROWS baseCurrency)
             then mkMeta baseCurrency baseCurrency "🌐" :: ROWS
             else ROWS))).
  { destruct (negb (hasCode ROWS baseCurrency)); [right|]; exact Hin. }
  revert H1.
  generalize (if negb (hasCode ROWS baseCurrency)
              then mkMeta baseCurrency baseCurrency "🌐" :: ROWS
              else ROWS).
  intros l Hl. destruct (negb (hasCode l focusCurrency)); [right|]; exact Hl.
Qed.

Lemma filter_codes (l : list RowMeta) :
  map meta_code
      (filter (fun row => negb (String.eqb (meta_code row) baseCurrency)) l)
  = filter (fun c => negb (String.eqb c baseCurrency)) (map meta_code l).
Proof.
  induction l as [|row l IH]; simpl; [reflexivity|].
  destruct (negb (String.eqb (meta_code row) baseCurrency)); simpl;
    rewrite IH; reflexivity.
Qed.

Lemma mapped_codes_grid :
  map code mapped
  = filter resolvable
      (filter (fun c => negb (String.eqb c baseCurrency))
              (map meta_code (gridList baseCurrency focusCurrency))).
Proof.
  unfold mapped, CurrencyChartsSection.mapped. cbv zeta.
  rewrite mapped_codes, filter_codes. reflexivity.
Qed.

Lemma mapped_NoDup : NoDup (map code mapped).
Proof.
  rewrite mapped_codes_grid. apply NoDup_filter, NoDup_filter, gridList_NoDup.
Qed.

Lemma mapped_flags : flags focusCurrency mapped.
Proof.
  apply filter_Boolean_mapi_Forall. intros x i r Hr.
  apply (toRow_code x i r Hr).
Qed.

Lemma mapped_not_base : Forall (fun r => code r <> baseCurrency) mapped.
Proof.
  apply Forall_forall. intros r Hr.
  assert (Hin : In (code r) (map code mapped)) by (apply in_map, Hr).
  rewrite mapped_codes_grid in Hin.
  apply filter_In in Hin. destruct Hin as [Hin _].
  apply filter_In in Hin. destruct Hin as [_ Hne].
  apply String.eqb_neq. destruct (String.eqb (code r) baseCurrency);
    [discriminate | reflexivity].
Qed.
End Mapped.
End SectionFacts.

(** ** The projected table *)

Section Projection.
Context {C : Collator}.
Variables (rates : Rates) (baseCurrency focusCurrency : string)
          (range : RangeKey) (inverse : bool).

Let full := CurrencyChartsFullPage.rows (Some rates) baseCurrency
              focusCurrency range inverse.
Let section := CurrencyChartsSection.rows rates baseCurrency focusCurrency
                 range inverse.
Let result := CurrencyChartsFullPage.result rates baseCurrency focusCurrency
                range inverse.
Let mapped := CurrencyChartsSection.mapped rates baseCurrency focusCurrency
                range inverse.

Lemma full_unfold : full = Array_sort rowCompare result.
Proof. reflexivity. Qed.

Lemma section_unfold : section = Array_sort rowCompare mapped.
Proof. reflexivity. Qed.

Lemma result_NoDup : wellFormed rates -> NoDup (map code result).
Proof.
  intros Hwf. unfold result, CurrencyChartsFullPage.result. cbv zeta.
    rewrite FullPageFacts.result_codes. simpl.
  apply NoDup_filter, FullPageFacts.candidateCodes_NoDup, Hwf.
Qed.

Lemma result_flags : flags focusCurrency result.
Proof.
  eapply Forall_impl; [|apply FullPageFacts.result_rows].
  intros r [_ [_ H]]. exact H.
Qed.

Lemma result_not_base : Forall (fun r => code r <> baseCurrency) result.
Proof.
  eapply Forall_impl; [|apply FullPageFacts.result_rows].
  intros r [H _]. exact H.
Qed.

(** A table built from rows with distinct codes that flag the focus
    currency, one of them with the focus code: sorted, it has one flagged
    row, in front. *)
Lemma one_focus_row_first (l : list TableRow) :
  flags focusCurrency l -> NoDup (map code l) ->
  In focusCurrency (map code l) ->
  let out := Array_sort rowCompare l in
  List.length (filter isFocus out) = 1%nat
  /\ exists r rest,
       out = r :: rest /\ isFocus r = true /\ code r = focusCurrency.
Proof.
  intros Hf Hnd Hin out.
  assert (Hf' : flags focusCurrency out) by (apply sorted_Forall, Hf).
  assert (Hin' : In focusCurrency (map code out)).
  { eapply Permutation_in; [apply Permutation_sym, sorted_codes | exact Hin]. }
  split.
  - apply (flagged_once focusCurrency); [exact Hf' | apply sorted_NoDup, Hnd
                                         | exact Hin'].
  - destruct (sort_focus_first l) as [r [rest [E Hr]]].
    + rewrite (flagged_once focusCurrency l Hf Hnd Hin). lia.
    + apply in_map_iff in Hin. destruct Hin as [r [Hc Hr]].
      apply Exists_exists. exists r. split; [exact Hr|].
      unfold flags in Hf. rewrite Forall_forall in Hf.
      rewrite (Hf r Hr), Hc. apply String.eqb_refl.
    + exists r, rest. split; [exact E|]. split; [exact Hr|].
      unfold flags in Hf'. fold out in Hf'. unfold out in Hf'.
      rewrite E in Hf'.
      apply Forall_inv in Hf'. rewrite Hr in Hf'.
      symmetry in Hf'. apply String.eqb_eq in Hf'. exact Hf'.
Qed.

(** C1 (amended): when the focus currency is non-empty, differs from the
    base and has a rate to show -- on the full page an entry of the
    snapshot that is not zero, in the section an entry of the snapshot or a
    sample cross rate from the base -- exactly one row has focus = true and
    it is the first row. *)
Theorem focus_row_unique_and_first :
  wellFormed rates ->
  focusCurrency <> ""%string ->
  focusCurrency <> baseCurrency ->
  ((exists q, lookup rates focusCurrency = Some q
              /\ truthy_number q = true) ->
   List.length (filter isFocus full) = 1%nat
   /\ exists r rest,
        full = r :: rest /\ isFocus r = true /\ code r = focusCurrency)
  /\ (lookup rates focusCurrency <> None
      \/ CurrencyChartsSection.crossRate baseCurrency focusCurrency <> None ->
      List.length (filter isFocus section) = 1%nat
      /\ exists r rest,
           section = r :: rest /\ isFocus r = true /\ code r = focusCurrency).
Proof.
  intros Hwf Hne Hfb. split.
  - intros [q [Hq Ht]]. rewrite full_unfold.
    apply one_focus_row_first;
      [exact result_flags | exact (result_NoDup Hwf) |].
    unfold result, CurrencyChartsFullPage.result. cbv zeta.
    rewrite FullPageFacts.result_codes. simpl.
    apply filter_In. split.
    + apply FullPageFacts.candidateCodes_keys.
      eapply lookup_Some_In, Hq.
    + unfold CurrencyChartsFullPage.kept. rewrite Hq, Ht.
      apply String.eqb_neq in Hfb. rewrite Hfb. reflexivity.
  - intros Hres. rewrite section_unfold.
    apply one_focus_row_first;
      [apply SectionFacts.mapped_flags | apply SectionFacts.mapped_NoDup |].
    unfold mapped. rewrite SectionFacts.mapped_codes_grid.
    apply filter_In. split.
    + apply filter_In. split; [apply SectionFacts.gridList_focus|].
      apply String.eqb_neq in Hfb. rewrite Hfb. reflexivity.
    + unfold CurrencyChartsSection.resolvable.
      destruct (lookup rates focusCurrency); [reflexivity|].
      destruct (CurrencyChartsSection.crossRate baseCurrency focusCurrency);
        [reflexivity|]. destruct Hres; congruence.
Qed.

(** C6: no row of either table carries the base currency, and the rows
    other than the focus row ascend strictly by code. *)
Theorem rows_exclude_base_and_ascend {L : CollatorLaws C} :
  wellFormed rates ->
  (Forall (fun r => code r <> baseCurrency) full
   /\ ascending (filter notFocus full))
  /\ (Forall (fun r => code r <> baseCurrency) section
      /\ ascending (filter notFocus section))
  /\ CurrencyChartsFullPage.rows None baseCurrency focusCurrency range inverse
     = [].
Proof.
  intros Hwf. split; [|split]; [| |reflexivity].
  - rewrite full_unfold. split.
    + apply sorted_Forall, result_not_base.
    + apply sorted_others_ascending; [apply rows_sorted|].
      apply sorted_NoDup, result_NoDup, Hwf.
  - rewrite section_unfold. split.
    + apply sorted_Forall, SectionFacts.mapped_not_base.
    + apply sorted_others_ascending; [apply rows_sorted|].
      apply sorted_NoDup, SectionFacts.mapped_NoDup.
Qed.
End Projection.

(** The code unit order is a collation. *)
#[export] Instance codeUnitLaws : CollatorLaws codeUnitCollator.
Proof.
  constructor; unfold localeCompare, codeUnitCollator.
  - exact String.compare_eq_iff.
  - intros a b. apply String.compare_antisym.
  - intros a b c Hab Hbc.
    apply String_as_OT.cmp_lt. eapply String_as_OT.lt_trans;
      apply String_as_OT.cmp_lt; eassumption.
Qed.

Lemma SAMPLE_RATES_truthy (c : string) (q : Q) :
  lookup CurrencyChartsSection.SAMPLE_RATES c = Some q ->
  truthy_number q = true.
Proof.
  unfold CurrencyChartsSection.SAMPLE_RATES. cbn [lookup].
  repeat (destruct (String.eqb _ c);
          [intros H; injection H as <-; reflexivity|]).
  discriminate.
Qed.

Lemma map_code_nil (l : list TableRow) : map code l = [] -> l = [].
Proof. destruct l; [reflexivity | discriminate]. Qed.

Lemma Array_sort_nil_iff {C : Collator} (l : list TableRow) :
  Array_sort rowCompare l = [] <-> l = [].
Proof.
  split; [|intros ->; reflexivity].
  intros H. apply Permutation_nil.
  rewrite <- H. apply Array_sort_Permutation.
Qed.

(** C3 (amended): for a base and a focus currency that name no inherited
    member, the full page projects an empty snapshot to an empty table; the
    section falls back to the sample cross rates, and its table for an
    empty snapshot is empty exactly when the base currency has no sample
    rate. *)
Theorem empty_snapshot_projection {C : Collator}
        (baseCurrency focusCurrency : string) (range : RangeKey)
        (inverse : bool) :
  plainKey baseCurrency -> plainKey focusCurrency ->
  CurrencyChartsFullPage.rows (Some []) baseCurrency focusCurrency range inverse
  = []
  /\ (CurrencyChartsSection.rows [] baseCurrency focusCurrency range inverse
      = []
      <-> lookup CurrencyChartsSection.SAMPLE_RATES baseCurrency = None).
Proof.
  intros _ _. split.
  - unfold CurrencyChartsFullPage.rows, CurrencyChartsFullPage.result,
      CurrencyChartsFullPage.candidateCodes.
    simpl.
    destruct (truthy_string focusCurrency
              && negb (String.eqb focusCurrency baseCurrency)); simpl;
      [|reflexivity].
    unfold CurrencyChartsFullPage.pushRow. simpl.
    destruct (String.eqb focusCurrency baseCurrency); reflexivity.
  - change (CurrencyChartsSection.rows [] baseCurrency focusCurrency range inverse)
      with (Array_sort rowCompare
              (CurrencyChartsSection.mapped [] baseCurrency focusCurrency range inverse)).
    rewrite Array_sort_nil_iff. split.
    + intros Hnil.
      destruct (lookup CurrencyChartsSection.SAMPLE_RATES baseCurrency)
        as [q|] eqn:Eb; [exfalso | reflexivity].
      pose proof (SAMPLE_RATES_truthy _ _ Eb) as Hq.
      assert (Hin : exists w,
                 In w (map CurrencyChartsSection.meta_code
                           CurrencyChartsSection.ROWS)
                 /\ String.eqb w baseCurrency = false
                 /\ CurrencyChartsSection.resolvable [] baseCurrency w = true).
      { destruct (String.eqb "USD" baseCurrency) eqn:Eu.
        - apply String.eqb_eq in Eu. subst baseCurrency.
          exists "EUR"%string. repeat split. simpl. tauto.
        - exists "USD"%string. split; [simpl; tauto|]. split; [exact Eu|].
          unfold CurrencyChartsSection.resolvable, CurrencyChartsSection.crossRate.
          rewrite Eb, Hq. reflexivity. }
      destruct Hin as [w [Hw [Hwb Hres]]].
      assert (Hc : In w (map code (CurrencyChartsSection.mapped [] baseCurrency
                                     focusCurrency range inverse))).
      { rewrite SectionFacts.mapped_codes_grid.
        apply filter_In. split; [|exact Hres].
        apply filter_In. split; [apply SectionFacts.gridList_ROWS, Hw|].
        rewrite Hwb. reflexivity. }
      rewrite Hnil in Hc. destruct Hc.
    + intros Eb. apply map_code_nil.
      rewrite SectionFacts.mapped_codes_grid.
      generalize (filter (fun c => negb (String.eqb c baseCurrency))
                    (map CurrencyChartsSection.meta_code
                       (CurrencyChartsSection.gridList baseCurrency
                                                       focusCurrency))).
      intros l. induction l as [|c l IH]; [reflexivity|]. simpl.
      unfold CurrencyChartsSection.resolvable at 1.
      unfold CurrencyChartsSection.crossRate. rewrite Eb. simpl. exact IH.
Qed.

(** C7 (amended): scenario A on the full page gives exactly two rows, INR
    (focus, 83.1) and then EUR (no focus, 0.92), under any collation; in the
    section it gives six rows, INR (focus, 83.1) first and then the other
    listed currencies in ascending order, EUR with 0.92 among them. *)
Theorem scenario_A_rows :
  (forall C : Collator,
      map shown (CurrencyChartsFullPage.rows (Some scenarioA) "USD" "INR"
                                             Range24H false)
      = [("INR", true, 83.1); ("EUR", false, 0.92)]%string%Q)
  /\ map shown (CurrencyChartsSection.rows (C := codeUnitCollator) scenarioA
                                           "USD" "INR" Range24H false)
     = [("INR", true, 83.1); ("AUD", false, 1.52); ("CAD", false, 1.37);
        ("EUR", false, 0.92); ("GBP", false, 0.78);
        ("JPY", false, 151.2)]%string%Q.
Proof.
  split.
  - intros C. vm_compute. reflexivity.
  - vm_compute. reflexivity.
Qed.

(** C7 as stated fails in the section: the same inputs give six rows, and
    the second one is AUD. *)
Lemma scenario_A_section_six_rows :
  ~ (exists r1 r2,
        CurrencyChartsSection.rows scenarioA "USD" "INR" Range24H false
        = [r1; r2]).
Proof.
  intros [r1 [r2 H]]. apply (f_equal (@List.length TableRow)) in H.
  vm_compute in H. discriminate.
Qed.

(** C3 as stated fails in the section: with no rates at all, base USD and
    focus INR, the table has the six sample rows. *)
Lemma empty_snapshot_section_not_empty :
  CurrencyChartsSection.rows [] "USD" "INR" Range24H false <> [].
Proof.
  intros H. apply (f_equal (@List.length TableRow)) in H.
  vm_compute in H. discriminate.
Qed.

(** C1 as stated fails on the full page: base USD, focus ZAR and a snapshot
    without ZAR give the single row EUR, which is not flagged. *)
Lemma focus_row_missing_without_rate :
  let out := CurrencyChartsFullPage.rows (Some [("EUR", 0.92)]%string%Q)
               "USD" "ZAR" Range24H false in
  "ZAR"%string <> ""%string /\ "ZAR"%string <> "USD"%string
  /\ map shown out = [("EUR", false, 0.92)]%string%Q
  /\ ~ (List.length (filter isFocus out) = 1%nat).
Proof.
  split; [discriminate|]. split; [discriminate|].
  split; [vm_compute; reflexivity|].
  vm_compute. discriminate.
Qed.

Lemma scenarioA_wellFormed : wellFormed scenarioA.
Proof.
  unfold wellFormed, scenarioA. simpl.
  repeat constructor; simpl; intuition discriminate.
Defined.

(** The amended C1 at scenario A. *)
Lemma focus_row_unique_and_first_witness :
  let full := CurrencyChartsFullPage.rows (Some scenarioA) "USD" "INR"
                Range24H false in
  let section := CurrencyChartsSection.rows scenarioA "USD" "INR"
                   Range24H false in
  (List.length (filter isFocus full) = 1%nat
   /\ exists r rest, full = r :: rest /\ isFocus r = true
                     /\ code r = "INR"%string)
  /\ (List.length (filter isFocus section) = 1%nat
      /\ exists r rest, section = r :: rest /\ isFocus r = true
                        /\ code r = "INR"%string).
Proof.
  destruct (@focus_row_unique_and_first codeUnitCollator
              scenarioA "USD" "INR" Range24H false scenarioA_wellFormed
              ltac:(discriminate) ltac:(discriminate)) as [HF HS].
  split.
  - apply HF. exists 83.1%Q. split; reflexivity.
  - apply HS. left. discriminate.
Defined.

(** C6 at scenario A. *)
Lemma rows_exclude_base_and_ascend_witness :
  let full := CurrencyChartsFullPage.rows (Some scenarioA) "USD" "INR"
                Range24H false in
  let section := CurrencyChartsSection.rows scenarioA "USD" "INR"
                   Range24H false in
  wellFormed scenarioA
  /\ (Forall (fun r => code r <> "USD"%string) full
      /\ ascending (filter notFocus full))
  /\ (Forall (fun r => code r <> "USD"%string) section
      /\ ascending (filter notFocus section)).
Proof.
  split; [exact scenarioA_wellFormed|].
  destruct (@rows_exclude_base_and_ascend codeUnitCollator
              scenarioA "USD"%string "INR"%string Range24H false
              codeUnitLaws scenarioA_wellFormed)
    as [HF [HS _]].
  split; [exact HF | exact HS].
Defined.

(** The amended C3 at the base CHF, which has no sample rate, and the
    focus USD. *)
Lemma empty_snapshot_projection_witness :
  CurrencyChartsFullPage.rows (C := codeUnitCollator) (Some [])
                              "CHF" "USD" Range24H false = []
  /\ (CurrencyChartsSection.rows (C := codeUnitCollator) []
                                 "CHF" "USD" Range24H false = []
      <-> lookup CurrencyChartsSection.SAMPLE_RATES "CHF" = None).
Proof.
  apply (@empty_snapshot_projection codeUnitCollator "CHF" "USD"
           Range24H false); reflexivity.
Defined.



(** C4 at the range 7D and the seed 3. *)
Lemma trend_length_fixed_by_range_witness :
  List.length (CurrencyChartsSection.makeTrend Range7D 3) = 20%nat
  /\ List.length (CurrencyChartsFullPage.makeTrend Range7D 3) = 22%nat
  /\ CurrencyChartsSection.makeTrend Range7D 3
     = CurrencyChartsSection.makeTrend Range7D 3.
Proof.
  destruct (trend_length_fixed_by_range Range7D 3) as [[HS HF] [_ Hdet]].
  split; [exact HS|]. split; [exact HF|].
  exact (proj1 (Hdet Range7D 3 eq_refl eq_refl)).
Defined.

(** ** The fetch effect *)
Module RateFetchFacts.
Import RateFetch.

Lemma setPhase_length id ph es :
  List.length (setPhase id ph es) = List.length es.
Proof. apply length_map. Qed.

Lemma setPhase_cancelled id ph es :
  Forall (fun e' => cancelled e' = true) es ->
  Forall (fun e' => cancelled e' = true) (setPhase id ph es).
Proof.
  intros H. unfold setPhase. apply Forall_map.
  eapply Forall_impl; [|exact H]. intros e He.
  destruct (Nat.eqb (eff_id e) id); exact He.
Qed.

(** Moving a call along keeps the invariant. *)
Lemma Inv_setPhase id ph s :
  Inv s -> Inv (withEffects (setPhase id ph (effects s)) s).
Proof.
  intros [Hst Hw]. split; [|exact Hw].
  unfold staleCancelled in *. simpl.
  destruct (effects s) as [|e es]; simpl; [exact I|].
  destruct Hst as [Hid [Hb Hc]].
  rewrite setPhase_length.
  destruct (Nat.eqb (eff_id e) id); simpl;
    (split; [exact Hid | split; [exact Hb | apply setPhase_cancelled, Hc]]).
Qed.

Lemma Inv_setLoading b s : Inv s -> Inv (setLoading b s).
Proof. intros H. exact H. Qed.

Lemma Inv_setError e s : Inv s -> Inv (setError e s).
Proof. intros H. exact H. Qed.

Lemma Inv_cleanup s : Inv s -> Inv (withEffects (cleanup (effects s)) s).
Proof.
  intros [Hst Hw]. split; [|exact Hw].
  unfold staleCancelled in *. simpl.
  destruct (effects s) as [|e es]; simpl; [exact I | exact Hst].
Qed.

(** A run that is found and not cancelled is the most recent one. *)
Lemma live_effect_is_latest s id e :
  Inv s -> findEffect s id = Some e -> cancelled e = false ->
  eff_id e = latestId s /\ baseCurrency s = Some (eff_base e).
Proof.
  intros [Hst _] Hfind Hlive.
  unfold findEffect in Hfind. apply find_some in Hfind.
  destruct Hfind as [Hin _].
  unfold staleCancelled in Hst. unfold latestId, nextId.
  destruct (effects s) as [|e0 es]; [destruct Hin|].
  destruct Hst as [Hid [Hb Hc]]. destruct Hin as [-> | Hin].
  - simpl. split; assumption.
  - rewrite Forall_forall in Hc. specialize (Hc e Hin). congruence.
Qed.

Lemma Inv_setRates s id e r :
  Inv s -> findEffect s id = Some e -> cancelled e = false ->
  Inv (setRates (eff_id e) (eff_base e) r s).
Proof.
  intros HI Hfind Hlive.
  destruct (live_effect_is_latest s id e HI Hfind Hlive) as [Hid Hb].
  destruct HI as [Hst Hw]. split; [exact Hst|].
  simpl. constructor; [|exact Hw]. split; simpl; assumption.
Qed.

Lemma Inv_settle id s : Inv s -> Inv (settle id s).
Proof. intros H. unfold settle. apply Inv_setLoading, Inv_setPhase, H. Qed.

Lemma Inv_catchBlock c s id e :
  Inv s -> findEffect s id = Some e -> Inv (catchBlock c e s).
Proof.
  intros HI Hfind. unfold catchBlock.
  destruct (cancelled e) eqn:Hc; [apply Inv_setPhase, HI|].
  destruct c; apply Inv_settle;
    apply (Inv_setRates (setError _ s) id e); auto using Inv_setError.
Qed.

Lemma Inv_applyData c s id e data_rates :
  Inv s -> findEffect s id = Some e -> Inv (applyData c e data_rates s).
Proof.
  intros HI Hfind. unfold applyData.
  destruct (cancelled e) eqn:Hc; [apply Inv_setPhase, HI|].
  apply Inv_settle. apply (Inv_setRates s id e); assumption.
Qed.

(** A new run starts after the previous one was cleaned up. *)
Lemma Inv_start c base s :
  Forall (fun e' => cancelled e' = true) (effects s) ->
  Forall current (writes s) ->
  baseCurrency s = Some base ->
  Inv (start c base s).
Proof.
  intros Hc Hw Hb.
  assert (Hrun : forall ph,
             Inv (withEffects (mkEffect (nextId s) base false ph :: effects s) s)).
  { intros ph. split; [|exact Hw]. unfold staleCancelled. simpl.
    split; [reflexivity | split; [exact Hb | exact Hc]]. }
  unfold start. destruct c.
  - destruct (negb (truthy_string base)); [apply Hrun|].
    apply Inv_setError, Inv_setLoading, Hrun.
  - destruct (targets base); [|apply Inv_setError, Inv_setLoading, Hrun].
    apply Inv_setLoading.
    set (s1 := setError None (setLoading true
                 (withEffects (mkEffect (nextId s) base false AwaitFetch
                                 :: effects s) s))).
    assert (H1 : Inv s1) by apply Inv_setError, Inv_setLoading, Hrun.
    pose proof (Inv_setPhase (nextId s) Settled s1 H1) as [Hst2 Hw2].
    split; [exact Hst2|].
    simpl. constructor; [|exact Hw]. split; simpl.
    + unfold latestId, nextId. simpl.
      rewrite setPhase_length. reflexivity.
    + exact Hb.
Qed.

Lemma cleanup_all_cancelled s :
  Inv s -> Forall (fun e' => cancelled e' = true) (cleanup (effects s)).
Proof.
  intros [Hst _]. unfold staleCancelled in Hst.
  destruct (effects s) as [|e es]; simpl; [constructor|].
  destruct Hst as [_ [_ Hc]]. constructor; [reflexivity | exact Hc].
Qed.

Lemma Inv_init c : Inv (init c).
Proof. split; [exact I | constructor]. Qed.

Lemma Inv_step c s ev : Inv s -> Inv (step c s ev).
Proof.
  intros HI. destruct ev as [base | | id ok | id | id data_rates | id];
    unfold step.
  - destruct (baseCurrency s) as [b|] eqn:Eb.
    + destruct (String.eqb b base); [exact HI|].
      apply Inv_start; simpl;
        [apply cleanup_all_cancelled, HI | apply HI | reflexivity].
    + apply Inv_start; simpl; [|apply HI | reflexivity].
      destruct HI as [Hst _]. unfold staleCancelled in Hst.
      destruct (effects s) as [|e es]; [constructor|].
      destruct Hst as [_ [Hb _]]. congruence.
  - apply Inv_cleanup, HI.
  - destruct (findEffect s id) as [e|] eqn:Ef; [|exact HI].
    destruct (inPhase AwaitFetch e); [|exact HI].
    destruct ok; [apply Inv_setPhase, HI | eapply Inv_catchBlock; eassumption].
  - destruct (findEffect s id) as [e|] eqn:Ef; [|exact HI].
    destruct (inPhase AwaitFetch e); [|exact HI].
    eapply Inv_catchBlock; eassumption.
  - destruct (findEffect s id) as [e|] eqn:Ef; [|exact HI].
    destruct (inPhase AwaitJson e); [|exact HI].
    eapply Inv_applyData; eassumption.
  - destruct (findEffect s id) as [e|] eqn:Ef; [|exact HI].
    destruct (inPhase AwaitJson e); [|exact HI].
    eapply Inv_catchBlock; eassumption.
Qed.

Lemma Inv_fold c evs : forall s, Inv s -> Inv (fold_left (step c) evs s).
Proof.
  induction evs as [|ev evs IH]; intros s HI; simpl;
    [exact HI | apply IH, Inv_step, HI].
Qed.
End RateFetchFacts.

(** C9: whatever the renders and in whatever order the fetches settle, every
    call of [setRates] is made by the most recent run of the effect, the one
    that fetched for the current base currency: a superseded fetch never
    writes the displayed rates. *)
Theorem stale_fetch_never_applied
        (c : RateFetch.Component) (evs : list RateFetch.Event) :
  Forall RateFetch.current (RateFetch.writes (RateFetch.run c evs)).
Proof.
  apply (RateFetchFacts.Inv_fold c evs (RateFetch.init c)),
        RateFetchFacts.Inv_init.
Qed.

(** The effect at work: the base changes from USD to EUR while the first
    fetch is in flight; the late USD response is dropped and the EUR
    response is the only write. *)
Example late_response_dropped :
  let usd := [("EUR", 0.92)]%string%Q in
  let eur := [("USD", 1.09)]%string%Q in
  let s := RateFetch.run RateFetch.FullPage
             [ RateFetch.Render "USD"; RateFetch.Render "EUR";
               RateFetch.FetchResolved 1 true;
               RateFetch.FetchResolved 0 true;
               RateFetch.JsonResolved 1 (Some eur);
               RateFetch.JsonResolved 0 (Some usd) ] in
  RateFetch.rates s = Some eur
  /\ map RateFetch.writer (RateFetch.writes s) = [1%nat]
  /\ RateFetch.loading s = false.
Proof. repeat split. Qed.

(** ** The alert store and the alert form *)
Section Alerts.
Import GetAlertsSection.
Context {H : Host}.

(** A block whose handler returns a value completes normally. *)
Lemma tryCatch_Normal {A : Type} (body : Completion A) (a : A) :
  exists r, tryCatch body (fun _ => Normal a) = Normal r.
Proof. destruct body as [r | e]; simpl; eexists; reflexivity. Qed.

(** C8: [loadAlerts] never throws.  It returns the stored array when the
    stored text parses as an array, and the empty list when there is no
    stored text, when the text does not parse, when it parses to something
    that is not an array, and when the storage cannot be read. *)
Theorem loadAlerts_never_throws {HL : HostLaws H} (ls : LocalStorage) :
  (exists alerts, loadAlerts ls = Normal alerts)
  /\ (forall raw items,
         getItem ls ALERTS_KEY = Normal (Some raw) ->
         JSON_parse raw = Normal (JArray items) ->
         loadAlerts ls = Normal items)
  /\ (getItem ls ALERTS_KEY = Normal None -> loadAlerts ls = Normal [])
  /\ (forall raw e,
         getItem ls ALERTS_KEY = Normal (Some raw) ->
         JSON_parse raw = Throw e ->
         loadAlerts ls = Normal [])
  /\ (forall raw parsed,
         getItem ls ALERTS_KEY = Normal (Some raw) ->
         JSON_parse raw = Normal parsed ->
         (forall items, parsed <> JArray items) ->
         loadAlerts ls = Normal [])
  /\ (forall e, getItem ls ALERTS_KEY = Throw e -> loadAlerts ls = Normal []).
Proof.
  destruct (JSON_parse_empty) as [e0 Hempty].
  assert (Hraw : forall raw, truthy_string raw = false -> raw = ""%string).
  { intros raw Hr. unfold truthy_string in Hr.
    apply String.eqb_eq. destruct (String.eqb raw ""); [reflexivity|discriminate]. }
  unfold loadAlerts. repeat split.
  - apply tryCatch_Normal.
  - intros raw items -> Hp. simpl.
    destruct (truthy_string raw) eqn:Er; simpl.
    + rewrite Hp. reflexivity.
    + apply Hraw in Er. subst raw. congruence.
  - intros ->. reflexivity.
  - intros raw e -> Hp. simpl.
    destruct (truthy_string raw); simpl; [rewrite Hp|]; reflexivity.
  - intros raw parsed -> Hp Hna. simpl.
    destruct (truthy_string raw); simpl; [rewrite Hp; simpl|reflexivity].
    destruct parsed; try reflexivity. exfalso. eapply Hna. reflexivity.
  - intros e ->. reflexivity.
Qed.

Lemma includes_at_cons (c : ascii) (s : string) :
  includes (String c s) "@" = true ->
  c = "@"%char \/ includes s "@" = true.
Proof.
  cbn [includes String.prefix]. intros Hs.
  apply orb_true_iff in Hs. destruct Hs as [Hs | Hs]; [left | right; exact Hs].
  destruct (ascii_dec "@" c) as [E | _]; [symmetry; exact E | discriminate].
Qed.

Lemma trimEnd_at (s : string) :
  includes s "@" = true -> trimEnd s <> ""%string.
Proof.
  induction s as [|c s IH]; [discriminate|].
  intros Hs. cbn [trimEnd].
  destruct (trimEnd s) eqn:Et; [|discriminate].
  destruct (includes_at_cons c s Hs) as [-> | Hin].
  - discriminate.
  - exfalso. apply (IH Hin). reflexivity.
Qed.

(** A string that contains an at sign is not blank, so the check of the
    trimmed email never decides against such a string. *)
Lemma includes_at_not_blank (s : string) :
  includes s "@" = true -> trim s <> ""%string.
Proof.
  unfold trim. induction s as [|c s IH]; [discriminate|].
  intros Hs. cbn [trimStart].
  destruct (isWhiteSpace c) eqn:Ec; [|apply trimEnd_at, Hs].
  apply IH. destruct (includes_at_cons c s Hs) as [-> | Hin];
    [discriminate | exact Hin].
Qed.

Section Form.
Variables (p : Props) (st : State).

(** C10: once the currencies and the target rate pass, the form is valid
    exactly when the trimmed email is not empty and the email contains an
    at sign and a dot; a valid form is saved: the new alert is put in
    front of the list, the saved flag is set, and the list is written to
    the storage when the storage accepts the write. *)
Theorem email_accepted_iff :
  earlierChecksPass p st ->
  (fst (validateForm p st) = true
   <-> trim (emailInput st) <> ""%string
       /\ includes (emailInput st) "@" = true
       /\ includes (emailInput st) "." = true)
  /\ (fst (validateForm p st) = true ->
      forall clock ls,
        let '(st', ls') := handleSubmit p clock st ls in
        let updated :=
          alertObject (newAlert p st clock) :: existingAlerts st in
        existingAlerts st' = updated
        /\ saved st' = true
        /\ error st' = None
        /\ (writable ls = true ->
            lookup (items ls') ALERTS_KEY
            = Some (JSON_stringify (JArray updated)))).
Proof.
  intros [Hf [Ht [Hne [Hr [Hfin Hpos]]]]].
  assert (Hv : validateForm p st
               = if negb (truthy_string (trim (emailInput st)))
                 then (false,
                       setError (setError st None)
                         (Some "Please enter an email for the alert."%string))
                 else if negb (includes (emailInput st) "@")
                         || negb (includes (emailInput st) ".")
                      then (false,
                            setError (setError st None)
                              (Some "Please enter a valid email address."%string))
                      else (true, setError st None)).
  { unfold validateForm. cbv zeta. rewrite Hf, Ht, Hne. simpl.
    change (targetRate (setError st None)) with (targetRate st).
    change (emailInput (setError st None)) with (emailInput st).
    rewrite Hr, Hfin, Hpos. reflexivity. }
  split.
  - rewrite Hv. split.
    + intros Hok.
      destruct (truthy_string (trim (emailInput st))) eqn:Et;
        simpl in Hok; [|discriminate].
      destruct (includes (emailInput st) "@") eqn:Ea;
        simpl in Hok; [|discriminate].
      destruct (includes (emailInput st) ".") eqn:Ed;
        simpl in Hok; [|discriminate].
      split; [|split; reflexivity].
      intros Hempty. rewrite Hempty in Et. discriminate.
    + intros [Hne' [Ha Hd]]. rewrite Ha, Hd.
      unfold truthy_string.
      destruct (String.eqb_spec (trim (emailInput st)) ""); [contradiction|].
      reflexivity.
  - intros Hok clock ls. unfold handleSubmit.
    destruct (validateForm p st) as [ok st1] eqn:Ev. simpl in Hok. subst ok.
    assert (Hst1 : st1 = setError st None).
    { clear Ev.
      destruct (negb (truthy_string (trim (emailInput st))));
        [discriminate|].
      destruct (negb (includes (emailInput st) "@")
                || negb (includes (emailInput st) "."));
        [discriminate|].
      injection Hv as ->. reflexivity. }
    subst st1. simpl. repeat split.
    intros Hw. unfold saveAlerts, setItem. rewrite Hw. reflexivity.
Qed.
End Form.
End Alerts.

(** The example host raises an error on the empty text. *)
#[export] Instance exampleHostLaws : HostLaws exampleHost.
Proof. constructor. exists "SyntaxError"%string. reflexivity. Qed.

(** C8 at a storage that holds the text of a one-element array. *)
Lemma loadAlerts_never_throws_witness :
  GetAlertsSection.loadAlerts (H := exampleHost) exampleStorage
  = Normal [JNull].
Proof.
  destruct (@loadAlerts_never_throws exampleHost exampleHostLaws exampleStorage)
    as [_ [Harray _]].
  apply (Harray "[null]"%string); reflexivity.
Defined.

(** C10 at the email [a@.]: the form is valid and the alert is saved. *)
Lemma email_accepted_iff_witness :
  GetAlertsSection.earlierChecksPass (H := exampleHost) exampleProps exampleForm
  /\ fst (GetAlertsSection.validateForm (H := exampleHost)
            exampleProps exampleForm) = true
  /\ forall clock,
       GetAlertsSection.existingAlerts
         (fst (GetAlertsSection.handleSubmit (H := exampleHost) exampleProps
                 clock exampleForm exampleStorage))
       = [GetAlertsSection.alertObject
            (GetAlertsSection.newAlert (H := exampleHost) exampleProps
               exampleForm clock)].
Proof.
  assert (Hchecks : GetAlertsSection.earlierChecksPass (H := exampleHost)
                      exampleProps exampleForm).
  { repeat split. }
  destruct (@email_accepted_iff exampleHost exampleProps exampleForm Hchecks)
    as [Hiff Hsave].
  assert (Hvalid : fst (GetAlertsSection.validateForm (H := exampleHost)
                          exampleProps exampleForm) = true).
  { apply Hiff. repeat split. discriminate. }
  split; [exact Hchecks|]. split; [exact Hvalid|].
  intros clock. specialize (Hsave Hvalid clock exampleStorage).
  destruct (GetAlertsSection.handleSubmit exampleProps clock exampleForm
              exampleStorage) as [st' ls'].
  apply Hsave.
Defined.

(** * Further properties of the code around the claims *)

(** ** The walk stays close to 1 *)
Section WalkBounds.
Variable length : RangeKey -> nat.
Variables seedShift indexShift : Z.

Let rand := TrendGenerator.rand seedShift indexShift.
Let step := TrendGenerator.step seedShift indexShift.
Let loop := TrendGenerator.loop seedShift indexShift.

Lemma pow_nonneg (q : Q) (n : nat) : (0 <= q -> 0 <= pow q n)%Q.
Proof.
  intros Hq. induction n as [|n IH]; simpl; [discriminate|].
  apply Qmult_le_0_compat; assumption.
Qed.

(** Powers of a number below 1 fall, powers of a number above 1 grow. *)
Lemma pow_le_1_antitone (q : Q) (k n : nat) :
  (0 <= q -> q <= 1 -> (k <= n)%nat -> pow q n <= pow q k)%Q.
Proof.
  intros H0 H1 Hkn. induction Hkn as [|n Hkn IH]; [apply Qle_refl|].
  eapply Qle_trans; [|exact IH]. simpl.
  rewrite <- (Qmult_1_l (pow q n)) at 2.
  apply Qmult_le_compat_r; [exact H1 | apply pow_nonneg, H0].
Qed.

Lemma pow_ge_1_monotone (q : Q) (k n : nat) :
  (1 <= q -> (k <= n)%nat -> pow q k <= pow q n)%Q.
Proof.
  intros H1 Hkn. induction Hkn as [|n Hkn IH]; [apply Qle_refl|].
  eapply Qle_trans; [exact IH|]. simpl.
  rewrite <- (Qmult_1_l (pow q n)) at 1.
  apply Qmult_le_compat_r; [exact H1|].
  apply pow_nonneg. eapply Qle_trans; [|exact H1]. discriminate.
Qed.

(** The factor of one step, for any seed. *)
Lemma factor_bounds (range : RangeKey) (seed i : Z) :
  (0.946 <= 1 + rand seed i * TrendGenerator.spread range
   /\ 1 + rand seed i * TrendGenerator.spread range <= 1.018)%Q.
Proof.
  destruct (rand_bounds seedShift indexShift seed i) as [Hlo Hhi].
  fold rand in Hlo, Hhi. revert Hlo Hhi.
  generalize (rand seed i). intros r Hlo Hhi.
  destruct range; unfold TrendGenerator.spread; cbn [RangeKey_eqb];
    split; lra.
Qed.

(** The values so far are between the two powers for [bound] steps. *)
Let inBand (bound : nat) (v : Q) : Prop :=
  (pow 0.946 bound <= v /\ v <= pow 1.018 bound)%Q.

Lemma loop_band (range : RangeKey) (seed : Z) (bound : nat) (n : nat) :
  forall (k : nat) (i : Z) (st : Q * list Q),
    (k + n <= bound)%nat ->
    (pow 0.946 k <= fst st /\ fst st <= pow 1.018 k)%Q ->
    Forall (inBand bound) (snd st) ->
    Forall (inBand bound) (snd (loop range seed n i st)).
Proof.
  induction n as [|n IH]; intros k i [v vals] Hk [Hlo Hhi] Hall; simpl.
  - exact Hall.
  - simpl in Hlo, Hhi, Hall.
    destruct (factor_bounds range seed i) as [Hf1 Hf2].
    set (f := (1 + rand seed i * TrendGenerator.spread range)%Q) in *.
    assert (Hv0 : (0 <= v)%Q).
    { eapply Qle_trans; [|exact Hlo]. apply pow_nonneg. discriminate. }
    assert (Hf0 : (0 <= f)%Q) by (eapply Qle_trans; [|exact Hf1]; discriminate).
    assert (Hlo' : (pow 0.946 (S k) <= v * f)%Q).
    { simpl. rewrite Qmult_comm.
      eapply Qle_trans;
        [apply Qmult_le_compat_r; [exact Hlo | discriminate]|].
      rewrite (Qmult_comm v 0.946), (Qmult_comm v f).
      apply Qmult_le_compat_r; [exact Hf1 | exact Hv0]. }
    assert (Hhi' : (v * f <= pow 1.018 (S k))%Q).
    { simpl. rewrite (Qmult_comm 1.018).
      eapply Qle_trans;
        [|apply Qmult_le_compat_r; [exact Hhi | discriminate]].
      rewrite (Qmult_comm v f), (Qmult_comm v 1.018).
      apply Qmult_le_compat_r; [exact Hf2 | exact Hv0]. }
    apply (IH (S k)); simpl; [lia | split; assumption |].
    apply Forall_app. split; [exact Hall|].
    constructor; [|constructor]. split.
    + eapply Qle_trans; [|exact Hlo'].
      apply pow_le_1_antitone; [discriminate | discriminate | lia].
    + eapply Qle_trans; [exact Hhi'|].
      apply pow_ge_1_monotone; [discriminate | lia].
Qed.

Lemma makeTrend_band (range : RangeKey) (seed : Z) :
  (length range <= 30)%nat ->
  Forall (fun v => (1 # 6 < v /\ v < 2)%Q)
         (TrendGenerator.makeTrend length seedShift indexShift range seed).
Proof.
  intros Hlen. unfold TrendGenerator.makeTrend.
  eapply Forall_impl;
    [| apply (loop_band range seed 30 (length range) 0 0 (1%Q, []));
       [simpl; lia | simpl; split; apply Qle_refl | constructor]].
  intros v [Hlo Hhi]. split.
  - eapply Qlt_le_trans; [|exact Hlo]. vm_compute. reflexivity.
  - eapply Qle_lt_trans; [exact Hhi|]. vm_compute. reflexivity.
Qed.
End WalkBounds.

(** X1: whatever the range, for every safe seed every value of a trend
    lies strictly between 1/6 and 2. *)
Theorem trend_values_in_band (range : RangeKey) (seed : Z) :
  safeSeed seed ->
  Forall (fun v => (1 # 6 < v /\ v < 2)%Q)
         (CurrencyChartsSection.makeTrend range seed)
  /\ Forall (fun v => (1 # 6 < v /\ v < 2)%Q)
            (CurrencyChartsFullPage.makeTrend range seed).
Proof.
  intros _. split; apply makeTrend_band; destruct range; cbn; lia.
Qed.

(** X1 at the range 3M and the seed 5. *)
Lemma trend_values_in_band_witness :
  Forall (fun v => (1 # 6 < v /\ v < 2)%Q)
         (CurrencyChartsSection.makeTrend Range3M 5)
  /\ Forall (fun v => (1 # 6 < v /\ v < 2)%Q)
            (CurrencyChartsFullPage.makeTrend Range3M 5).
Proof.
  apply (trend_values_in_band Range3M 5). unfold safeSeed. simpl. lia.
Defined.

(** ** For the seeds the tables pass, every step is small *)
Section WalkSteps.
Variable length : RangeKey -> nat.
Variables seedShift indexShift : Z.
Hypothesis seedShift_nonneg : 0 <= seedShift.
Hypothesis indexShift_nonneg : 0 <= indexShift.

Let rand := TrendGenerator.rand seedShift indexShift.
Let loop := TrendGenerator.loop seedShift indexShift.







End WalkSteps.



(** ** The sample cross rates *)
Section CrossRates.
Import CurrencyChartsSection.

Lemma SAMPLE_RATES_positive (c : string) (q : Q) :
  lookup SAMPLE_RATES c = Some q -> (0 < q)%Q.
Proof.
  unfold SAMPLE_RATES. cbn [lookup].
  repeat (destruct (String.eqb _ c);
          [intros H; injection H as <-; reflexivity|]).
  discriminate.
Qed.

Lemma truthy_of_positive (q : Q) : (0 < q)%Q -> truthy_number q = true.
Proof.
  intros Hq. unfold truthy_number.
  destruct (Qeq_bool q 0) eqn:E; [|reflexivity].
  apply Qeq_bool_iff in E. rewrite E in Hq. discriminate.
Qed.

(** What [crossRate] returns, in terms of the table. *)
Lemma crossRate_spec (base quote : string) :
  crossRate base quote
  = match lookup SAMPLE_RATES base, lookup SAMPLE_RATES quote with
    | Some baseUsd, Some quoteUsd => Some (quoteUsd / baseUsd)%Q
    | _, _ => None
    end.
Proof.
  unfold crossRate.
  destruct (lookup SAMPLE_RATES base) as [b|] eqn:Eb; [|reflexivity].
  destruct (lookup SAMPLE_RATES quote) as [q|] eqn:Eq; [|reflexivity].
  rewrite (truthy_of_positive b (SAMPLE_RATES_positive _ _ Eb)).
  rewrite (truthy_of_positive q (SAMPLE_RATES_positive _ _ Eq)).
  reflexivity.
Qed.

Lemma crossRate_positive (base quote : string) (r : Q) :
  crossRate base quote = Some r -> (0 < r)%Q.
Proof.
  rewrite crossRate_spec.
  destruct (lookup SAMPLE_RATES base) as [b|] eqn:Eb; [|discriminate].
  destruct (lookup SAMPLE_RATES quote) as [q|] eqn:Eq; [|discriminate].
  intros H. injection H as <-.
  apply Qlt_shift_div_l;
    [apply (SAMPLE_RATES_positive _ _ Eb) | rewrite Qmult_0_l].
  apply (SAMPLE_RATES_positive _ _ Eq).
Qed.

(** X3: for a base and a quote that name no inherited member,
    [crossRate] gives a rate exactly when both currencies are in the sample
    table, and the rate is then positive. *)
Theorem crossRate_defined_iff_listed (base quote : string) :
  plainKey base -> plainKey quote ->
  (crossRate base quote <> None
   <-> lookup SAMPLE_RATES base <> None /\ lookup SAMPLE_RATES quote <> None)
  /\ (forall r, crossRate base quote = Some r -> (0 < r)%Q).
Proof.
  intros _ _. split; [|apply crossRate_positive].
  rewrite crossRate_spec.
  destruct (lookup SAMPLE_RATES base) as [b|];
    destruct (lookup SAMPLE_RATES quote) as [q|];
    (split; [intros H; try (split; discriminate); congruence
            | intros [H1 H2]; congruence]).
Qed.

(** X3 at EUR and INR. *)
Lemma crossRate_defined_iff_listed_witness :
  (crossRate "EUR" "INR" <> None
   <-> lookup SAMPLE_RATES "EUR" <> None /\ lookup SAMPLE_RATES "INR" <> None)
  /\ (forall r, crossRate "EUR" "INR" = Some r -> (0 < r)%Q).
Proof.
  apply (crossRate_defined_iff_listed "EUR" "INR"); reflexivity.
Defined.
End CrossRates.

(** ** The section's fallback snapshot and the API targets *)
Section Fallback.
Import CurrencyChartsSection.

Lemma lookup_Some_In_pair {V : Type} (o : list (string * V)) (key : string)
      (v : V) :
  lookup o key = Some v -> In (key, v) o.
Proof.
  induction o as [|[k w] o IH]; simpl; [discriminate|].
  destruct (String.eqb k key) eqn:E.
  - apply String.eqb_eq in E. intros H. injection H as <-. subst k.
    left. reflexivity.
  - intros H. right. apply IH, H.
Qed.

(** The loop that fills [fallback], started from any object and run over
    any list of rows. *)
Let fill (base : string) (fallback : Rates) (rows : list RowMeta) : Rates :=
  fold_left
    (fun fallback row =>
       let code := meta_code row in
       if String.eqb code base then fallback
       else match crossRate base code with
            | Some r => fallback ++ [(code, r)]
            | None => fallback
            end)
    rows fallback.

Let entryOk (base : string) (e : string * Q) : Prop :=
  fst e <> base /\ crossRate base (fst e) = Some (snd e).

Lemma fill_entries (base : string) (rows : list RowMeta) :
  forall fallback,
    Forall (entryOk base) fallback ->
    Forall (entryOk base) (fill base fallback rows).
Proof.
  induction rows as [|row rows IH]; intros fallback Hf; [exact Hf|].
  apply IH. cbv zeta.
  destruct (String.eqb (meta_code row) base) eqn:Eb; [exact Hf|].
  destruct (crossRate base (meta_code row)) as [r|] eqn:Er; [|exact Hf].
  apply Forall_app. split; [exact Hf|].
  constructor; [|constructor]. split; [|exact Er].
  apply String.eqb_neq, Eb.
Qed.

Lemma fill_wellFormed (base : string) (rows : list RowMeta) :
  NoDup (map meta_code rows) ->
  forall fallback,
    wellFormed fallback ->
    (forall c, In c (Object_keys fallback) -> ~ In c (map meta_code rows)) ->
    wellFormed (fill base fallback rows).
Proof.
  unfold wellFormed.
  induction rows as [|row rows IH]; intros Hnd fallback Hwf Hdis; [exact Hwf|].
  simpl in Hnd. inversion Hnd as [|? ? Hnotin Hnd']; subst.
  simpl.
  assert (Hdis' : forall c, In c (Object_keys fallback) ->
                            ~ In c (map meta_code rows)).
  { intros c Hc Hin. apply (Hdis c Hc). right. exact Hin. }
  destruct (String.eqb (meta_code row) base); [apply IH; assumption|].
  destruct (crossRate base (meta_code row)) as [r|]; [|apply IH; assumption].
  apply IH; [exact Hnd' | |].
  - unfold Object_keys. rewrite map_app. simpl.
    apply NoDup_app; [exact Hwf | repeat constructor; intros [] |].
    intros c Hc [<- | []]. apply (Hdis _ Hc). left. reflexivity.
  - intros c Hc. unfold Object_keys in Hc. rewrite map_app in Hc.
    apply in_app_or in Hc. destruct Hc as [Hc | [<- | []]];
      [apply Hdis', Hc | exact Hnotin].
Qed.

Lemma fallbackRates_entries_aux (base : string) :
  wellFormed (RateFetch.fallbackRates base)
  /\ Forall (fun e => fst e <> base
                      /\ crossRate base (fst e) = Some (snd e))
            (RateFetch.fallbackRates base).
Proof.
  split.
  - apply (fill_wellFormed base ROWS (SectionFacts.ROWS_NoDup [] base) []);
      [constructor | intros c []].
  - apply (fill_entries base ROWS []). constructor.
Qed.

(** X5: for a base that names no inherited member, the fallback snapshot
    of the section is a well formed snapshot that never lists the base
    currency; every entry is the positive sample cross rate from the base;
    and it is empty when the base has no sample rate. *)
Theorem fallbackRates_entries (base : string) :
  plainKey base ->
  wellFormed (RateFetch.fallbackRates base)
  /\ Forall (fun e => fst e <> base
                      /\ crossRate base (fst e) = Some (snd e)
                      /\ (0 < snd e)%Q)
            (RateFetch.fallbackRates base)
  /\ (lookup SAMPLE_RATES base = None -> RateFetch.fallbackRates base = []).
Proof.
  intros _. destruct (fallbackRates_entries_aux base) as [Hwf Hall].
  split; [exact Hwf|]. split.
  - eapply Forall_impl; [|exact Hall].
    intros [c r] [Hc Hr]. simpl in *. split; [exact Hc|]. split; [exact Hr|].
    apply (crossRate_positive base c r Hr).
  - intros Hb.
    destruct (RateFetch.fallbackRates base) as [|[c r] l]; [reflexivity|].
    apply Forall_inv in Hall. destruct Hall as [_ Hr]. simpl in Hr.
    rewrite crossRate_spec, Hb in Hr. discriminate.
Qed.

(** X5 at the base EUR. *)
Lemma fallbackRates_entries_witness :
  wellFormed (RateFetch.fallbackRates "EUR")
  /\ Forall (fun e => fst e <> "EUR"%string
                      /\ crossRate "EUR" (fst e) = Some (snd e)
                      /\ (0 < snd e)%Q)
            (RateFetch.fallbackRates "EUR")
  /\ (lookup SAMPLE_RATES "EUR" = None -> RateFetch.fallbackRates "EUR" = []).
Proof.
  apply (fallbackRates_entries "EUR"). reflexivity.
Defined.
End Fallback.

Section FallbackTable.
Import CurrencyChartsSection.
Context {C : Collator}.

Lemma mapi_ext {A B : Type} (f g : A -> Z -> B) (l : list A) :
  (forall x i, In x l -> f x i = g x i) ->
  forall index, mapi f l index = mapi g l index.
Proof.
  induction l as [|x l IH]; intros Hfg index; [reflexivity|].
  simpl. rewrite (Hfg x index (or_introl eq_refl)). f_equal.
  apply IH. intros y i Hy. apply Hfg. right. exact Hy.
Qed.

(** X6: after a failed fetch the section stores the fallback snapshot; the
    table it then shows is the table it shows with no rates at all, row for
    row. *)
Theorem fallback_snapshot_same_table
        (baseCurrency focusCurrency : string) (range : RangeKey)
        (inverse : bool) :
  rows (RateFetch.fallbackRates baseCurrency) baseCurrency focusCurrency
       range inverse
  = rows [] baseCurrency focusCurrency range inverse.
Proof.
  unfold rows, mapped. cbv zeta. do 2 f_equal.
  apply mapi_ext. intros row i _. unfold toRow. cbv zeta.
  destruct (lookup (RateFetch.fallbackRates baseCurrency) (meta_code row))
    as [r|] eqn:El; [|reflexivity].
  apply lookup_Some_In_pair in El.
  destruct (fallbackRates_entries_aux baseCurrency) as [_ Hall].
  rewrite Forall_forall in Hall. destruct (Hall _ El) as [_ Hr].
  simpl in Hr. simpl. rewrite Hr. reflexivity.
Qed.
End FallbackTable.

(** ** What the preview shows *)
Section Preview.
Context {C : Collator}.


End Preview.



(** ** The API targets and what a render does to the rates *)
Section Targets.

Lemma filter_ne_length (base : string) (l : list string) :
  NoDup l ->
  (List.length l
   <= S (List.length (filter (fun c => negb (String.eqb c base)) l)))%nat.
Proof.
  induction 1 as [|a l Hnotin Hnd IH]; simpl; [lia|].
  destruct (String.eqb a base) eqn:E; simpl; [|lia].
  apply String.eqb_eq in E. subst a.
  assert (Hall : filter (fun c => negb (String.eqb c base)) l = l).
  { clear IH Hnd. induction l as [|b l IHl]; [reflexivity|]. simpl.
    destruct (String.eqb b base) eqn:Eb.
    - apply String.eqb_eq in Eb. exfalso. apply Hnotin. left. exact Eb.
    - simpl. f_equal. apply IHl. intros Hc. apply Hnotin. right. exact Hc. }
  rewrite Hall. lia.
Qed.

Lemma targets_never_empty_aux (base : string) :
  RateFetch.targets base <> [].
Proof.
  assert (Hnd : NoDup (filter (fun c => negb (String.eqb c base))
                         (map CurrencyChartsSection.meta_code
                              CurrencyChartsSection.ROWS))).
  { apply NoDup_filter, (SectionFacts.ROWS_NoDup [] base). }
  unfold RateFetch.targets. rewrite (nodup_fixed_point string_dec Hnd).
  pose proof (filter_ne_length base _ (SectionFacts.ROWS_NoDup [] base)) as H.
  simpl List.length in H at 1. intros E. rewrite E in H. simpl in H. lia.
Qed.

(** X8: the list of currencies the section asks the API for never contains
    the base, has no repetition and has at least six entries; so the branch
    [if (!targets.length) { setRates({}); return; }] is never taken. *)
Theorem targets_never_empty (base : string) :
  ~ In base (RateFetch.targets base)
  /\ NoDup (RateFetch.targets base)
  /\ (6 <= List.length (RateFetch.targets base))%nat
  /\ RateFetch.targets base <> [].
Proof.
  assert (Hnd : NoDup (filter (fun c => negb (String.eqb c base))
                         (map CurrencyChartsSection.meta_code
                              CurrencyChartsSection.ROWS))).
  { apply NoDup_filter, (SectionFacts.ROWS_NoDup [] base). }
  assert (Hlen : (6 <= List.length (RateFetch.targets base))%nat).
  { unfold RateFetch.targets. rewrite (nodup_fixed_point string_dec Hnd).
    pose proof (filter_ne_length base _ (SectionFacts.ROWS_NoDup [] base)) as H.
    simpl List.length in H at 1. lia. }
  split; [|split; [|split]].
  - unfold RateFetch.targets. rewrite nodup_In. intros Hin.
    apply filter_In in Hin. destruct Hin as [_ Hne].
    rewrite String.eqb_refl in Hne. discriminate.
  - apply NoDup_nodup.
  - exact Hlen.
  - intros E. rewrite E in Hlen. simpl in Hlen. lia.
Qed.

(** X9: a render or an unmount never writes the rates: in both components
    the displayed snapshot changes only when a response settles, so the
    snapshot of the previous base stays on display until then. *)
Theorem render_keeps_rates
        (c : RateFetch.Component) (s : RateFetch.State) (base : string) :
  RateFetch.rates (RateFetch.step c s (RateFetch.Render base))
  = RateFetch.rates s
  /\ RateFetch.writes (RateFetch.step c s (RateFetch.Render base))
     = RateFetch.writes s
  /\ RateFetch.rates (RateFetch.step c s RateFetch.Unmount)
     = RateFetch.rates s.
Proof.
  assert (Hstart : forall s',
             RateFetch.rates (RateFetch.start c base s') = RateFetch.rates s'
             /\ RateFetch.writes (RateFetch.start c base s')
                = RateFetch.writes s').
  { intros s'. unfold RateFetch.start. destruct c.
    - destruct (negb (truthy_string base)); split; reflexivity.
    - destruct (RateFetch.targets base) eqn:E;
        [exfalso; apply (targets_never_empty_aux base), E|].
      split; reflexivity. }
  unfold RateFetch.step.
  destruct (RateFetch.baseCurrency s) as [b|];
    [destruct (String.eqb b base)|].
  - repeat split.
  - destruct (Hstart
                {| RateFetch.baseCurrency := Some base;
                   RateFetch.effects :=
                     RateFetch.effects
                       (RateFetch.withEffects
                          (RateFetch.cleanup (RateFetch.effects s)) s);
                   RateFetch.rates :=
                     RateFetch.rates
                       (RateFetch.withEffects
                          (RateFetch.cleanup (RateFetch.effects s)) s);
                   RateFetch.loading :=
                     RateFetch.loading
                       (RateFetch.withEffects
                          (RateFetch.cleanup (RateFetch.effects s)) s);
                   RateFetch.error :=
                     RateFetch.error
                       (RateFetch.withEffects
                          (RateFetch.cleanup (RateFetch.effects s)) s);
                   RateFetch.writes :=
                     RateFetch.writes
                       (RateFetch.withEffects
                          (RateFetch.cleanup (RateFetch.effects s)) s) |})
      as [H1 H2].
    cbv zeta. rewrite H1, H2. repeat split.
  - destruct (Hstart
                {| RateFetch.baseCurrency := Some base;
                   RateFetch.effects := RateFetch.effects s;
                   RateFetch.rates := RateFetch.rates s;
                   RateFetch.loading := RateFetch.loading s;
                   RateFetch.error := RateFetch.error s;
                   RateFetch.writes := RateFetch.writes s |}) as [H1 H2].
    rewrite H1, H2. repeat split.
Qed.
End Targets.

(** ** Which rows the tables have, and what does not depend on the trend *)
Section RowSets.
Context {C : Collator}.
Variables (rates : Rates) (baseCurrency focusCurrency : string)
          (range : RangeKey) (inverse : bool).

Lemma lookup_None_of_not_key (c : string) :
  ~ In c (Object_keys rates) -> lookup rates c = None.
Proof.
  intros Hnotin. destruct (lookup rates c) as [q|] eqn:E; [|reflexivity].
  exfalso. apply Hnotin. eapply lookup_Some_In, E.
Qed.

Lemma kept_candidateCodes :
  filter (CurrencyChartsFullPage.kept rates baseCurrency)
         (CurrencyChartsFullPage.candidateCodes rates baseCurrency
                                                focusCurrency)
  = filter (CurrencyChartsFullPage.kept rates baseCurrency)
           (Object_keys rates).
Proof.
  unfold CurrencyChartsFullPage.candidateCodes. cbv zeta.
  destruct (truthy_string focusCurrency
            && negb (String.eqb focusCurrency baseCurrency)); simpl;
    [|reflexivity].
  destruct (includes_code (Object_keys rates) focusCurrency) eqn:E; simpl;
    [reflexivity|].
  unfold CurrencyChartsFullPage.kept at 1.
  rewrite (lookup_None_of_not_key _ (includes_code_false _ _ E)).
  rewrite andb_false_r. reflexivity.
Qed.

Lemma pushRow_nonzero (codes : list string) (index : Z) :
  Forall (fun r => ~ (rate r == 0)%Q
                   /\ name r = CurrencyChartsFullPage.getName (code r))
         (forEach (CurrencyChartsFullPage.pushRow rates baseCurrency
                     focusCurrency range inverse) codes index []).
Proof.
  apply forEach_invariant; [|constructor].
  intros s c i Hs. unfold CurrencyChartsFullPage.pushRow.
  destruct (String.eqb c baseCurrency); [exact Hs|].
  destruct (lookup rates c) as [q|]; [|exact Hs].
  destruct (truthy_number q) eqn:Eq; simpl; [|exact Hs].
  apply Forall_app. split; [exact Hs|].
  constructor; [|constructor]. simpl. split; [|reflexivity].
  intros E. unfold truthy_number in Eq.
  apply Qeq_bool_iff in E. rewrite E in Eq. discriminate.
Qed.

(** X10: for a focus currency that names no inherited member, the full
    page has exactly one row for every entry of the snapshot whose code is
    not the base and whose rate is not zero, and no other row: the focus
    currency put in front of the codes never gets a row of its own.  Every
    row carries the rate of the snapshot and the name [getName] gives. *)
Theorem full_page_rows_are_snapshot_entries :
  plainKey focusCurrency ->
  let rows := CurrencyChartsFullPage.rows (Some rates) baseCurrency
                focusCurrency range inverse in
  Permutation (map code rows)
              (filter (CurrencyChartsFullPage.kept rates baseCurrency)
                      (Object_keys rates))
  /\ Forall (fun r => lookup rates (code r) = Some (rate r)
                      /\ ~ (rate r == 0)%Q
                      /\ name r = CurrencyChartsFullPage.getName (code r))
            rows.
Proof.
  intros _ rows. unfold rows, CurrencyChartsFullPage.rows. split.
  - eapply perm_trans; [apply sorted_codes|].
    unfold CurrencyChartsFullPage.result. cbv zeta.
    rewrite FullPageFacts.result_codes. simpl.
    rewrite kept_candidateCodes. apply Permutation_refl.
  - apply sorted_Forall. unfold CurrencyChartsFullPage.result. cbv zeta.
    apply Forall_forall. intros r Hr.
    pose proof (FullPageFacts.result_rows rates baseCurrency focusCurrency
                  range inverse
                  (CurrencyChartsFullPage.candidateCodes rates baseCurrency
                                                         focusCurrency) 0)
      as H1.
    pose proof (pushRow_nonzero
                  (CurrencyChartsFullPage.candidateCodes rates baseCurrency
                                                         focusCurrency) 0)
      as H2.
    rewrite Forall_forall in H1, H2.
    destruct (H1 r Hr) as [_ [Hl _]]. destruct (H2 r Hr) as [Hz Hn].
    auto.
Qed.

Lemma gridList_codes (c : string) :
  In c (map CurrencyChartsSection.meta_code
            (CurrencyChartsSection.gridList baseCurrency focusCurrency))
  <-> In c (map CurrencyChartsSection.meta_code CurrencyChartsSection.ROWS)
      \/ c = baseCurrency \/ c = focusCurrency.
Proof.
  unfold CurrencyChartsSection.gridList. cbv zeta.
  set (l1 := if negb (CurrencyChartsSection.hasCode
                        CurrencyChartsSection.ROWS baseCurrency)
             then CurrencyChartsSection.mkMeta baseCurrency baseCurrency "🌐"
                  :: CurrencyChartsSection.ROWS
             else CurrencyChartsSection.ROWS).
  assert (H1 : In c (map CurrencyChartsSection.meta_code l1)
               <-> In c (map CurrencyChartsSection.meta_code
                             CurrencyChartsSection.ROWS)
                   \/ c = baseCurrency).
  { unfold l1.
    destruct (CurrencyChartsSection.hasCode CurrencyChartsSection.ROWS
                                            baseCurrency) eqn:E;
      simpl negb; cbv iota.
    - split; [intros H; left; exact H|].
      intros [H | ->]; [exact H|].
      apply SectionFacts.hasCode_true, E.
    - split.
      + intros [<- | H]; [right; reflexivity | left; exact H].
      + intros [H | ->]; [right; exact H | left; reflexivity]. }
  destruct (CurrencyChartsSection.hasCode l1 focusCurrency) eqn:E;
    simpl negb; cbv iota.
  - rewrite H1. split; [intros [H | H]; auto|].
    intros [H | [H | ->]]; auto.
    apply H1. apply SectionFacts.hasCode_true, E.
  - split.
    + intros [<- | H]; [auto|]. apply H1 in H. destruct H; auto.
    + intros [H | [H | ->]];
        [right; apply H1; auto | right; apply H1; auto | left; reflexivity].
Qed.

(** X11: for a base and a focus currency that name no inherited member,
    the section has a row for a code exactly when the code is not the base,
    is one of the listed currencies or the focus currency, and has a rate in
    the snapshot or a sample cross rate from the base; the rate of a row is
    the entry of the snapshot when there is one and the sample cross rate
    otherwise. *)
Theorem section_rows_are_listed_codes :
  plainKey baseCurrency -> plainKey focusCurrency ->
  let rows := CurrencyChartsSection.rows rates baseCurrency focusCurrency
                range inverse in
  (forall c,
      In c (map code rows)
      <-> c <> baseCurrency
          /\ (In c (map CurrencyChartsSection.meta_code
                        CurrencyChartsSection.ROWS)
              \/ c = focusCurrency)
          /\ CurrencyChartsSection.resolvable rates baseCurrency c = true)
  /\ Forall (fun r =>
               Some (rate r)
               = match lookup rates (code r) with
                 | Some apiRate => Some apiRate
                 | None => CurrencyChartsSection.crossRate baseCurrency (code r)
                 end)
            rows.
Proof.
  intros _ _ rows. unfold rows, CurrencyChartsSection.rows. split.
  - intros c. split.
    + intros Hin.
      apply (Permutation_in _ (sorted_codes _)) in Hin.
      rewrite SectionFacts.mapped_codes_grid in Hin.
      apply filter_In in Hin. destruct Hin as [Hin Hres].
      apply filter_In in Hin. destruct Hin as [Hin Hne].
      assert (Hcb : c <> baseCurrency).
      { apply String.eqb_neq. destruct (String.eqb c baseCurrency);
          [discriminate | reflexivity]. }
      split; [exact Hcb|]. split; [|exact Hres].
      apply gridList_codes in Hin. destruct Hin as [H | [H | H]]; auto.
      contradiction.
    + intros [Hcb [Hl Hres]].
      apply (Permutation_in _ (Permutation_sym (sorted_codes _))).
      rewrite SectionFacts.mapped_codes_grid.
      apply filter_In. split; [|exact Hres].
      apply filter_In. split.
      * apply gridList_codes. destruct Hl; auto.
      * apply String.eqb_neq in Hcb. rewrite Hcb. reflexivity.
  - apply sorted_Forall. unfold CurrencyChartsSection.mapped. cbv zeta.
    apply filter_Boolean_mapi_Forall. intros row i r.
    unfold CurrencyChartsSection.toRow. cbv zeta.
    destruct (lookup rates (CurrencyChartsSection.meta_code row)) as [q|] eqn:El.
    + intros H. injection H as <-. simpl. rewrite El. reflexivity.
    + destruct (CurrencyChartsSection.crossRate baseCurrency
                  (CurrencyChartsSection.meta_code row)) as [q|] eqn:Ec;
        [|discriminate].
      intros H. injection H as <-. simpl. rewrite El, Ec. reflexivity.
Qed.
End RowSets.

(** X10 at scenario A with the focus ZAR, which the snapshot lacks. *)
Lemma full_page_rows_are_snapshot_entries_witness :
  let rows := CurrencyChartsFullPage.rows (C := codeUnitCollator)
                (Some scenarioA) "USD" "ZAR" Range24H false in
  Permutation (map code rows)
              (filter (CurrencyChartsFullPage.kept scenarioA "USD")
                      (Object_keys scenarioA))
  /\ Forall (fun r => lookup scenarioA (code r) = Some (rate r)
                      /\ ~ (rate r == 0)%Q
                      /\ name r = CurrencyChartsFullPage.getName (code r))
            rows.
Proof.
  apply (@full_page_rows_are_snapshot_entries codeUnitCollator scenarioA
           "USD" "ZAR" Range24H false).
  reflexivity.
Defined.

(** X11 at scenario A with the base USD and the focus INR. *)
Lemma section_rows_are_listed_codes_witness :
  let rows := CurrencyChartsSection.rows (C := codeUnitCollator)
                scenarioA "USD" "INR" Range24H false in
  (forall c,
      In c (map code rows)
      <-> c <> "USD"%string
          /\ (In c (map CurrencyChartsSection.meta_code
                        CurrencyChartsSection.ROWS)
              \/ c = "INR"%string)
          /\ CurrencyChartsSection.resolvable scenarioA "USD" c = true)
  /\ Forall (fun r =>
               Some (rate r)
               = match lookup scenarioA (code r) with
                 | Some apiRate => Some apiRate
                 | None => CurrencyChartsSection.crossRate "USD" (code r)
                 end)
            rows.
Proof.
  apply (@section_rows_are_listed_codes codeUnitCollator scenarioA
           "USD" "INR" Range24H false); reflexivity.
Defined.

(** ** The range and the display mode touch the trends only *)
Section TrendIndependence.
Context {C : Collator}.

(** The comparator of the rows, on what [shown] keeps of them. *)
Let shownCompare (x y : string * bool * Q) : comparison :=
  if snd (fst x) && negb (snd (fst y)) then Lt
  else if negb (snd (fst x)) && snd (fst y) then Gt
  else localeCompare (fst (fst x)) (fst (fst y)).

Lemma insert_map_shown (x : TableRow) (l : list TableRow) :
  map shown (insert rowCompare x l)
  = insert shownCompare (shown x) (map shown l).
Proof.
  induction l as [|y l IH]; [reflexivity|]. simpl.
  change (shownCompare (shown x) (shown y)) with (rowCompare x y).
  destruct (rowCompare x y); simpl; [reflexivity | reflexivity|].
  rewrite IH. reflexivity.
Qed.

Lemma sort_map_shown (l : list TableRow) :
  map shown (Array_sort rowCompare l)
  = Array_sort shownCompare (map shown l).
Proof.
  induction l as [|x l IH]; [reflexivity|]. simpl.
  rewrite insert_map_shown, IH. reflexivity.
Qed.

Variables (rates : Rates) (baseCurrency focusCurrency : string).

Lemma result_shown (range range' : RangeKey) (inverse inverse' : bool)
      (codes : list string) :
  forall index index' acc acc',
    map shown acc = map shown acc' ->
    map shown (forEach (CurrencyChartsFullPage.pushRow rates baseCurrency
                          focusCurrency range inverse) codes index acc)
    = map shown (forEach (CurrencyChartsFullPage.pushRow rates baseCurrency
                            focusCurrency range' inverse') codes index' acc').
Proof.
  induction codes as [|c codes IH]; intros index index' acc acc' Hacc;
    [exact Hacc|].
  simpl. apply IH. unfold CurrencyChartsFullPage.pushRow.
  destruct (String.eqb c baseCurrency); [exact Hacc|].
  destruct (lookup rates c) as [q|]; [|exact Hacc].
  destruct (negb (truthy_number q)); [exact Hacc|].
  rewrite !map_app, Hacc. reflexivity.
Qed.

Lemma toRow_shown (range : RangeKey) (inverse : bool)
      (row : CurrencyChartsSection.RowMeta) (index : Z) :
  option_map shown
             (CurrencyChartsSection.toRow rates baseCurrency focusCurrency
                                          range inverse row index)
  = option_map
      (fun q => (CurrencyChartsSection.meta_code row,
                 String.eqb (CurrencyChartsSection.meta_code row)
                            focusCurrency, q))
      match lookup rates (CurrencyChartsSection.meta_code row) with
      | Some r => Some r
      | None => CurrencyChartsSection.crossRate baseCurrency
                  (CurrencyChartsSection.meta_code row)
      end.
Proof.
  unfold CurrencyChartsSection.toRow. cbv zeta.
  destruct (lookup rates (CurrencyChartsSection.meta_code row));
    [reflexivity|].
  destruct (CurrencyChartsSection.crossRate baseCurrency
              (CurrencyChartsSection.meta_code row)); reflexivity.
Qed.

Lemma mapped_shown (range range' : RangeKey) (inverse inverse' : bool)
      (l : list CurrencyChartsSection.RowMeta) :
  forall index index',
    map shown
        (filter_Boolean
           (mapi (CurrencyChartsSection.toRow rates baseCurrency focusCurrency
                                              range inverse) l index))
    = map shown
          (filter_Boolean
             (mapi (CurrencyChartsSection.toRow rates baseCurrency
                      focusCurrency range' inverse') l index')).
Proof.
  induction l as [|row l IH]; intros index index'; [reflexivity|].
  cbn [mapi filter_Boolean].
  pose proof (toRow_shown range inverse row index) as H1.
  rewrite <- (toRow_shown range' inverse' row index') in H1.
  destruct (CurrencyChartsSection.toRow rates baseCurrency focusCurrency
              range inverse row index) as [r|];
    destruct (CurrencyChartsSection.toRow rates baseCurrency focusCurrency
                range' inverse' row index') as [r'|];
    try discriminate; cbn [filter_Boolean]; [|apply IH].
  cbn [option_map] in H1.
  assert (Hs : shown r = shown r') by congruence.
  cbn [map]. rewrite Hs. f_equal. apply IH.
Qed.

(** X12: changing the range or flipping the seed offset of the display mode
    changes the trends only: in both tables the codes, the focus flags, the
    rates and the order of the rows stay as they are. *)
Theorem range_changes_trends_only
        (range range' : RangeKey) (inverse inverse' : bool) :
  map shown (CurrencyChartsFullPage.rows (Some rates) baseCurrency
               focusCurrency range inverse)
  = map shown (CurrencyChartsFullPage.rows (Some rates) baseCurrency
                 focusCurrency range' inverse')
  /\ map shown (CurrencyChartsSection.rows rates baseCurrency focusCurrency
                  range inverse)
     = map shown (CurrencyChartsSection.rows rates baseCurrency focusCurrency
                    range' inverse').
Proof.
  split.
  - unfold CurrencyChartsFullPage.rows, CurrencyChartsFullPage.result.
    cbv zeta. rewrite !sort_map_shown. f_equal.
    apply result_shown. reflexivity.
  - unfold CurrencyChartsSection.rows, CurrencyChartsSection.mapped.
    cbv zeta. rewrite !sort_map_shown. f_equal.
    apply mapped_shown.
Qed.
End TrendIndependence.

(** ** The sparkline stays inside its drawing *)
Module SparklineFacts.
Import Sparkline.

Lemma min2_le_l (a b : Q) : (min2 a b <= a)%Q.
Proof.
  unfold min2. destruct (Qle_bool a b) eqn:E; [apply Qle_refl|].
  destruct (Qlt_le_dec b a) as [H | H]; [apply Qlt_le_weak, H|].
  apply Qle_bool_iff in H. congruence.
Qed.

Lemma min2_le_r (a b : Q) : (min2 a b <= b)%Q.
Proof.
  unfold min2. destruct (Qle_bool a b) eqn:E; [|apply Qle_refl].
  apply Qle_bool_iff, E.
Qed.

Lemma max2_ge_l (a b : Q) : (a <= max2 a b)%Q.
Proof.
  unfold max2. destruct (Qle_bool a b) eqn:E; [|apply Qle_refl].
  apply Qle_bool_iff, E.
Qed.

Lemma max2_ge_r (a b : Q) : (b <= max2 a b)%Q.
Proof.
  unfold max2. destruct (Qle_bool a b) eqn:E; [apply Qle_refl|].
  destruct (Qlt_le_dec b a) as [H | H]; [apply Qlt_le_weak, H|].
  apply Qle_bool_iff in H. congruence.
Qed.

Lemma fold_min2_le (l : list Q) :
  forall m, (fold_left min2 l m <= m)%Q
            /\ Forall (fun v => (fold_left min2 l m <= v)%Q) l.
Proof.
  induction l as [|a l IH]; intros m; simpl; [split; [apply Qle_refl|constructor]|].
  destruct (IH (min2 m a)) as [H1 H2]. split.
  - eapply Qle_trans; [exact H1 | apply min2_le_l].
  - constructor; [eapply Qle_trans; [exact H1 | apply min2_le_r] | exact H2].
Qed.

Lemma fold_max2_ge (l : list Q) :
  forall m, (m <= fold_left max2 l m)%Q
            /\ Forall (fun v => (v <= fold_left max2 l m)%Q) l.
Proof.
  induction l as [|a l IH]; intros m; simpl; [split; [apply Qle_refl|constructor]|].
  destruct (IH (max2 m a)) as [H1 H2]. split.
  - eapply Qle_trans; [apply max2_ge_l | exact H1].
  - constructor; [eapply Qle_trans; [apply max2_ge_r | exact H1] | exact H2].
Qed.

(** Rounding to one decimal keeps a number between two whole numbers. *)
Lemma toFixed1_between (a b : Z) (x : Q) :
  0 <= a ->
  (inject_Z a <= x -> x <= inject_Z b ->
   inject_Z a <= toFixed1 x /\ toFixed1 x <= inject_Z b)%Q.
Proof.
  intros Ha Hlo Hhi. unfold toFixed1.
  assert (H0 : Qle_bool 0 x = true).
  { apply Qle_bool_iff. eapply Qle_trans; [|exact Hlo].
    change 0%Q with (inject_Z 0). rewrite <- Zle_Qle. exact Ha. }
  rewrite H0. unfold roundHalfUp.
  set (f := Qfloor (x * 10 + (1 # 2))).
  assert (Hf1 : a * 10 <= f).
  { unfold f. rewrite <- (Qfloor_Z (a * 10)). apply Qfloor_resp_le.
    rewrite inject_Z_mult. change (inject_Z 10) with 10%Q. lra. }
  assert (Hf2 : f <= b * 10).
  { pose proof (Qfloor_le (x * 10 + (1 # 2))) as Hle. fold f in Hle.
    assert (Hq : (inject_Z f <= inject_Z (b * 10) + (1 # 2))%Q).
    { rewrite inject_Z_mult. change (inject_Z 10) with 10%Q. lra. }
    revert Hq. unfold Qle, Qplus, inject_Z. simpl. lia. }
  split.
  - apply Qle_shift_div_l; [reflexivity|].
    change 10%Q with (inject_Z 10).
    rewrite <- (inject_Z_mult a 10). rewrite <- Zle_Qle. exact Hf1.
  - apply Qle_shift_div_r; [reflexivity|].
    change 10%Q with (inject_Z 10).
    rewrite <- (inject_Z_mult b 10). rewrite <- Zle_Qle. exact Hf2.
Qed.

Lemma mapi_Forall {A B : Type} (P : B -> Prop) (f : A -> Z -> B)
      (Q0 : A -> Prop) (l : list A) :
  forall index,
    Forall Q0 l ->
    (forall x i, Q0 x -> index <= i < index + Z.of_nat (List.length l) ->
                 P (f x i)) ->
    Forall P (mapi f l index).
Proof.
  induction l as [|x l IH]; intros index Hl Hf; [constructor|].
  inversion Hl as [|? ? Hx Hl']; subst. simpl. constructor.
  - apply Hf; [exact Hx|]. simpl List.length. lia.
  - apply IH; [exact Hl'|]. intros y i Hy Hi. apply Hf; [exact Hy|].
    simpl List.length. lia.
Qed.

Lemma mapi_length {A B : Type} (f : A -> Z -> B) (l : list A) :
  forall index, List.length (mapi f l index) = List.length l.
Proof.
  induction l as [|x l IH]; intros index; [reflexivity|].
  simpl. f_equal. apply IH.
Qed.

Section Drawing.
Variables width height : Z.
Hypothesis width_nonneg : 0 <= width.
Hypothesis height_margin : 4 <= height.

Lemma point_inside (len : nat) (min range v : Q) (i : Z) :
  0 <= i < Z.of_nat len ->
  (0 < range)%Q -> (min <= v)%Q -> (v - min <= range)%Q ->
  inside width height (point width height len min range v i).
Proof.
  intros Hi Hr Hmin Hmax. unfold inside, point. cbv zeta. simpl fst. simpl snd.
  set (m := Z.max (Z.of_nat len - 1) 1).
  assert (Hm : (0 < inject_Z m)%Q).
  { change 0%Q with (inject_Z 0). rewrite <- Zlt_Qlt. unfold m. lia. }
  assert (Hw : (0 <= inject_Z width)%Q).
  { change 0%Q with (inject_Z 0). rewrite <- Zle_Qle. exact width_nonneg. }
  assert (Hh : (4 <= inject_Z height)%Q).
  { change 4%Q with (inject_Z 4). rewrite <- Zle_Qle. exact height_margin. }
  set (t := (inject_Z i / inject_Z m)%Q).
  assert (Ht : (0 <= t /\ t <= 1)%Q).
  { unfold t. split.
    - apply Qle_shift_div_l; [exact Hm|]. rewrite Qmult_0_l.
      change 0%Q with (inject_Z 0). rewrite <- Zle_Qle. lia.
    - apply Qle_shift_div_r; [exact Hm|]. rewrite Qmult_1_l.
      rewrite <- Zle_Qle. unfold m. lia. }
  set (u := ((v - min) / range)%Q).
  assert (Hu : (0 <= u /\ u <= 1)%Q).
  { unfold u. split.
    - apply Qle_shift_div_l; [exact Hr|]. rewrite Qmult_0_l. lra.
    - apply Qle_shift_div_r; [exact Hr|]. rewrite Qmult_1_l. exact Hmax. }
  assert (Hx : (inject_Z 0 <= t * inject_Z width
                /\ t * inject_Z width <= inject_Z width)%Q).
  { split.
    - apply Qmult_le_0_compat; [apply Ht | exact Hw].
    - rewrite <- (Qmult_1_l (inject_Z width)) at 2.
      apply Qmult_le_compat_r; [apply Ht | exact Hw]. }
  assert (Huh : (0 <= u * (inject_Z height - 4)
                 /\ u * (inject_Z height - 4) <= inject_Z height - 4)%Q).
  { split.
    - apply Qmult_le_0_compat; [apply Hu | lra].
    - rewrite <- (Qmult_1_l (inject_Z height - 4)) at 2.
      apply Qmult_le_compat_r; [apply Hu | lra]. }
  destruct (toFixed1_between 0 width (t * inject_Z width) ltac:(lia)
              (proj1 Hx) (proj2 Hx)) as [Hx1 Hx2].
  assert (Eh : (inject_Z (height - 2) == inject_Z height - 2)%Q).
  { unfold Z.sub. rewrite inject_Z_plus, inject_Z_opp. reflexivity. }
  destruct (toFixed1_between 2 (height - 2)
              (inject_Z height - u * (inject_Z height - 4) - 2) ltac:(lia))
    as [Hy1 Hy2].
  { change (inject_Z 2) with 2%Q. destruct Huh. lra. }
  { rewrite Eh. destruct Huh. lra. }
  split; [exact Hx1|]. split; [exact Hx2|]. split; [exact Hy1|].
  rewrite Eh in Hy2. exact Hy2.
Qed.

Lemma render_inside (values : list Q) (positive : bool) :
  match render width height values positive with
  | None => values = []
  | Some line =>
      values <> []
      /\ List.length (points line) = List.length values
      /\ Forall (inside width height) (points line)
  end.
Proof.
  destruct values as [|v0 rest]; [reflexivity|].
  unfold render. cbv zeta. cbn [points].
  set (values := v0 :: rest).
  set (min := fold_left min2 rest v0).
  set (max := fold_left max2 rest v0).
  set (range := if truthy_number (max - min) then (max - min)%Q else 1%Q).
  destruct (fold_min2_le rest v0) as [Hmin0 Hmin]. fold min in Hmin0, Hmin.
  destruct (fold_max2_ge rest v0) as [Hmax0 Hmax]. fold max in Hmax0, Hmax.
  assert (Hall : Forall (fun v => (min <= v /\ v <= max)%Q) values).
  { unfold values. constructor; [split; assumption|].
    rewrite Forall_forall in *. intros v Hv. split; [apply Hmin | apply Hmax];
      exact Hv. }
  assert (Hmm : (min <= max)%Q) by (eapply Qle_trans; eassumption).
  assert (Hr : (0 < range)%Q
               /\ forall v, (min <= v /\ v <= max)%Q -> (v - min <= range)%Q).
  { unfold range, truthy_number.
    destruct (Qeq_bool (max - min) 0) eqn:E; simpl.
    - apply Qeq_bool_iff in E. split; [reflexivity|]. intros v [H1 H2]. lra.
    - apply Qeq_bool_neq in E. split; [|intros v [H1 H2]; lra].
      apply Qle_lteq in Hmm. destruct Hmm as [Hlt | Heq]; [lra|].
      exfalso. apply E. lra. }
  split; [discriminate|]. split; [apply mapi_length|].
  apply (mapi_Forall _ _ (fun v => (min <= v /\ v <= max)%Q));
    [exact Hall|].
  intros v i Hv Hi. apply point_inside;
    [lia | apply Hr | apply Hv | apply (proj2 Hr), Hv].
Qed.
End Drawing.
End SparklineFacts.

(** X13: for safe values, a sparkline is drawn exactly when there are
    values, with one point per value, and every point is inside the
    drawing: between 0 and the width, and at least 2 away from the top and
    from the bottom. *)
Theorem sparkline_points_inside (values : list Q) (positive : bool) :
  Forall safeNumber values ->
  match Sparkline.ofSection values positive with
  | None => values = []
  | Some line =>
      values <> []
      /\ List.length (Sparkline.points line) = List.length values
      /\ Forall (Sparkline.inside 80 26) (Sparkline.points line)
  end
  /\ match Sparkline.ofFullPage values positive with
     | None => values = []
     | Some line =>
         values <> []
         /\ List.length (Sparkline.points line) = List.length values
         /\ Forall (Sparkline.inside 90 30) (Sparkline.points line)
     end.
Proof.
  intros _. split; apply SparklineFacts.render_inside; lia.
Qed.

(** X13 at three values around 1. *)
Lemma sparkline_points_inside_witness :
  match Sparkline.ofSection [1; 1.004; 0.99]%Q true with
  | None => [1; 1.004; 0.99]%Q = []
  | Some line =>
      [1; 1.004; 0.99]%Q <> []
      /\ List.length (Sparkline.points line) = 3%nat
      /\ Forall (Sparkline.inside 80 26) (Sparkline.points line)
  end
  /\ match Sparkline.ofFullPage [1; 1.004; 0.99]%Q true with
     | None => [1; 1.004; 0.99]%Q = []
     | Some line =>
         [1; 1.004; 0.99]%Q <> []
         /\ List.length (Sparkline.points line) = 3%nat
         /\ Forall (Sparkline.inside 90 30) (Sparkline.points line)
     end.
Proof.
  apply (sparkline_points_inside [1; 1.004; 0.99]%Q true).
  repeat constructor; vm_compute; discriminate.
Defined.

(** ** The alert form and the alert store, beyond the email check *)
Section AlertForm.
Import GetAlertsSection.
Context {H : Host}.
Variables (p : Props) (st : State).

(** What the email has to satisfy. *)
Let emailOk : Prop :=
  trim (emailInput st) <> ""%string
  /\ includes (emailInput st) "@" = true
  /\ includes (emailInput st) "." = true.

Lemma truthy_string_true (s : string) :
  truthy_string s = true <-> s <> ""%string.
Proof.
  unfold truthy_string. destruct (String.eqb_spec s ""); simpl; split;
    congruence.
Qed.

(** [validateForm] touches the error message only, and it leaves none
    exactly when every check passes. *)
Lemma validateForm_shape :
  exists msg,
    snd (validateForm p st) = setError st msg
    /\ (fst (validateForm p st) = true <-> msg = None)
    /\ (fst (validateForm p st) = true <-> earlierChecksPass p st /\ emailOk).
Proof.
  unfold validateForm, earlierChecksPass, emailOk. cbv zeta.
  change (targetRate (setError st None)) with (targetRate st).
  change (emailInput (setError st None)) with (emailInput st).
  pose proof (truthy_string_true (trim (emailInput st))) as Htrim.
  destruct (truthy_string (fromCurrency p));
    [|eexists; split; [reflexivity|]; simpl; intuition discriminate].
  destruct (truthy_string (toCurrency p));
    [|eexists; split; [reflexivity|]; simpl; intuition discriminate].
  destruct (String.eqb (fromCurrency p) (toCurrency p));
    [eexists; split; [reflexivity|]; simpl; intuition discriminate|].
  destruct (truthy_string (trim (targetRate st)));
    [|eexists; split; [reflexivity|]; simpl; intuition discriminate].
  destruct (isFinite (Number (targetRate st)));
    [|eexists; split; [reflexivity|]; simpl; intuition discriminate].
  destruct (nonPositive (Number (targetRate st)));
    [eexists; split; [reflexivity|]; simpl; intuition discriminate|].
  destruct (truthy_string (trim (emailInput st)));
    [|eexists; split; [reflexivity|]; simpl; intuition discriminate].
  destruct (includes (emailInput st) "@");
    [|eexists; split; [reflexivity|]; simpl; intuition discriminate].
  destruct (includes (emailInput st) ".");
    [|eexists; split; [reflexivity|]; simpl; intuition discriminate].
  exists None. split; [reflexivity|]. simpl. intuition (reflexivity || discriminate).
Qed.

(** X14: the form is valid exactly when both currencies are chosen and
    differ, the target is not blank and reads as a finite positive number,
    and the email is not blank and contains an at sign and a dot; and it is
    valid exactly when [validateForm] leaves no error message. *)
Theorem validateForm_characterised :
  (fst (validateForm p st) = true
   <-> earlierChecksPass p st
       /\ trim (emailInput st) <> ""%string
       /\ includes (emailInput st) "@" = true
       /\ includes (emailInput st) "." = true)
  /\ (fst (validateForm p st) = true
      <-> error (snd (validateForm p st)) = None).
Proof.
  destruct validateForm_shape as [msg [Hsnd [Hmsg Hok]]].
  split; [exact Hok|]. rewrite Hsnd. exact Hmsg.
Qed.

(** X15: submitting a form that is not valid saves nothing: the list of
    alerts, the saved flag and the storage stay as they are, and an error
    message is set. *)
Theorem invalid_submit_saves_nothing (clock : Clock) (ls : LocalStorage) :
  fst (validateForm p st) = false ->
  let '(st', ls') := handleSubmit p clock st ls in
  existingAlerts st' = existingAlerts st
  /\ saved st' = saved st
  /\ ls' = ls
  /\ error st' <> None.
Proof.
  intros Hbad. unfold handleSubmit.
  destruct validateForm_shape as [msg [Hsnd [Hmsg _]]].
  destruct (validateForm p st) as [ok st1]. simpl in Hbad, Hsnd, Hmsg.
  subst ok st1. simpl. repeat split.
  intros Hnone. apply Hmsg in Hnone. discriminate.
Qed.
End AlertForm.

(** X15 at a form whose email has no dot. *)
Lemma invalid_submit_saves_nothing_witness :
  GetAlertsSection.handleSubmit (H := exampleHost) exampleProps exampleClock
    exampleBadForm exampleStorage
  = (GetAlertsSection.setError exampleBadForm
       (Some "Please enter a valid email address."%string),
     exampleStorage).
Proof.
  pose proof (@invalid_submit_saves_nothing exampleHost exampleProps
                exampleBadForm exampleClock exampleStorage eq_refl) as Hx.
  destruct (GetAlertsSection.handleSubmit exampleProps exampleClock
              exampleBadForm exampleStorage) as [st' ls'] eqn:E.
  destruct Hx as [_ [_ [Hls _]]]. subst ls'.
  rewrite <- E. reflexivity.
Defined.

Section AlertStore.
Import GetAlertsSection.
Context {H : Host}.

(** What a write of the alerts leaves in the storage. *)
Lemma saveAlerts_result (ls : LocalStorage) (alerts : list Json) :
  saveAlerts ls alerts
  = Normal (if writable ls
            then {| items := (ALERTS_KEY, JSON_stringify (JArray alerts))
                               :: items ls;
                    readable := readable ls;
                    writable := writable ls |}
            else ls).
Proof.
  unfold saveAlerts, setItem. destruct (writable ls); reflexivity.
Qed.

(** X16: [saveAlerts] never throws, and a storage that refuses the write is
    left as it was.  [handleSubmit] does not notice: with a valid form it
    still puts the alert in the list and sets the saved flag, while the
    storage keeps its old content. *)
Theorem refused_write_goes_unnoticed
        (p : Props) (st : State) (clock : Clock) (ls : LocalStorage)
        (alerts : list Json) :
  (exists ls', saveAlerts ls alerts = Normal ls'
               /\ (writable ls = false -> ls' = ls))
  /\ (writable ls = false ->
      fst (validateForm p st) = true ->
      let '(st', ls') := handleSubmit p clock st ls in
      saved st' = true
      /\ existingAlerts st'
         = alertObject (newAlert p st clock) :: existingAlerts st
      /\ ls' = ls).
Proof.
  split.
  - rewrite saveAlerts_result. eexists. split; [reflexivity|].
    intros ->. reflexivity.
  - intros Hw Hok. unfold handleSubmit.
    destruct (validateForm_shape p st) as [msg [Hsnd [Hmsg _]]].
    destruct (validateForm p st) as [ok st1]. simpl in Hok, Hsnd, Hmsg.
    subst ok st1. rewrite saveAlerts_result, Hw. simpl. repeat split.
Qed.

(** X17: what [saveAlerts] writes, [loadAlerts] reads back: on a storage
    that can be written and read, for a list that the host prints to a text
    it parses back to the same array. *)
Theorem save_then_load {HL : HostLaws H}
        (ls : LocalStorage) (alerts : list Json) :
  writable ls = true -> readable ls = true ->
  JSON_parse (JSON_stringify (JArray alerts)) = Normal (JArray alerts) ->
  exists ls', saveAlerts ls alerts = Normal ls'
              /\ loadAlerts ls' = Normal alerts.
Proof.
  intros Hw Hr Hround. rewrite saveAlerts_result, Hw.
  eexists. split; [reflexivity|].
  unfold loadAlerts, getItem. cbn [readable items]. rewrite Hr.
  cbn [bind lookup]. rewrite String.eqb_refl. cbn [tryCatch bind].
  destruct (truthy_string (JSON_stringify (JArray alerts))) eqn:Et.
  - cbn [negb]. rewrite Hround. reflexivity.
  - exfalso. unfold truthy_string in Et.
    destruct (String.eqb_spec (JSON_stringify (JArray alerts)) "") as [E|];
      [|discriminate].
    rewrite E in Hround. destruct JSON_parse_empty as [e He]. congruence.
Qed.

Lemma includes_char_cons (c a : ascii) (s : string) :
  includes (String a s) (String c "") = true ->
  a = c \/ includes s (String c "") = true.
Proof.
  cbn [includes String.prefix]. intros Hs.
  apply orb_true_iff in Hs. destruct Hs as [Hs | Hs]; [left | right; exact Hs].
  destruct (ascii_dec c a) as [E | _]; [symmetry; exact E | discriminate].
Qed.

Lemma includes_char_head (c : ascii) (s : string) :
  includes (String c s) (String c "") = true.
Proof.
  cbn [includes String.prefix].
  destruct (ascii_dec c c) as [_ | Hne]; [|contradiction].
  destruct s; reflexivity.
Qed.

Lemma includes_char_tail (c a : ascii) (s : string) :
  includes s (String c "") = true ->
  includes (String a s) (String c "") = true.
Proof. intros Hs. cbn [includes]. rewrite Hs. apply orb_true_r. Qed.

Lemma trimEnd_keeps_char (c : ascii) (s : string) :
  isWhiteSpace c = false ->
  includes s (String c "") = true ->
  includes (trimEnd s) (String c "") = true.
Proof.
  intros Hc. induction s as [|a s IH]; [discriminate|].
  intros Hs. cbn [trimEnd].
  destruct (includes_char_cons c a s Hs) as [-> | Hin].
  - destruct (trimEnd s); [rewrite Hc|]; apply includes_char_head.
  - specialize (IH Hin). destruct (trimEnd s) as [|b t];
      [discriminate | apply includes_char_tail, IH].
Qed.

(** Trimming removes white space only: a character that is not white
    space stays. *)
Lemma trim_keeps_char (c : ascii) (s : string) :
  isWhiteSpace c = false ->
  includes s (String c "") = true ->
  includes (trim s) (String c "") = true.
Proof.
  intros Hc. unfold trim. induction s as [|a s IH]; [discriminate|].
  intros Hs. cbn [trimStart].
  destruct (isWhiteSpace a) eqn:Ea; [|apply trimEnd_keeps_char; assumption].
  apply IH. destruct (includes_char_cons c a s Hs) as [-> | Hin];
    [congruence | exact Hin].
Qed.

(** X18: every alert a valid form produces has two different currencies,
    neither of them empty, a positive threshold, the trimmed email, which is
    not empty and still contains the at sign and the dot, and the schedule
    06:00 and 19:00. *)
Theorem new_alert_well_formed (p : Props) (st : State) (clock : Clock) :
  fst (validateForm p st) = true ->
  let a := newAlert p st clock in
  from a <> ""%string /\ to a <> ""%string /\ from a <> to a
  /\ (0 < threshold a)%Q
  /\ email a = trim (emailInput st) /\ email a <> ""%string
  /\ includes (email a) "@" = true /\ includes (email a) "." = true
  /\ schedule a = ["06:00"; "19:00"]%string.
Proof.
  intros Hok a.
  destruct (validateForm_shape p st) as [_ [_ [_ Hall]]].
  apply Hall in Hok.
  destruct Hok as [[Hf [Ht [Hne [_ [Hfin Hpos]]]]] [He [Hat Hdot]]].
  unfold a, newAlert. cbn [from to threshold email schedule].
  split; [apply truthy_string_true, Hf|].
  split; [apply truthy_string_true, Ht|].
  split; [apply String.eqb_neq, Hne|].
  split.
  { destruct (Number (targetRate st)) as [| |t]; try discriminate.
    simpl in Hpos. destruct (Qlt_le_dec 0 t) as [Hlt | Hle]; [exact Hlt|].
    apply Qle_bool_iff in Hle. congruence. }
  split; [reflexivity|]. split; [exact He|].
  split; [apply trim_keeps_char; [reflexivity | exact Hat]|].
  split; [apply trim_keeps_char; [reflexivity | exact Hdot] | reflexivity].
Qed.
End AlertStore.

(** The printing host raises an error on the empty text. *)
#[export] Instance printingHostLaws : HostLaws printingHost.
Proof. constructor. exists "SyntaxError"%string. reflexivity. Qed.

(** X16 at a storage that refuses the write. *)
Lemma refused_write_goes_unnoticed_witness :
  snd (GetAlertsSection.handleSubmit (H := exampleHost) exampleProps
         exampleClock exampleForm fullStorage) = fullStorage
  /\ GetAlertsSection.saved
       (fst (GetAlertsSection.handleSubmit (H := exampleHost) exampleProps
               exampleClock exampleForm fullStorage)) = true.
Proof.
  destruct (@refused_write_goes_unnoticed exampleHost exampleProps exampleForm
              exampleClock fullStorage []) as [_ Hx].
  specialize (Hx eq_refl eq_refl).
  destruct (GetAlertsSection.handleSubmit exampleProps exampleClock
              exampleForm fullStorage) as [st' ls'].
  destruct Hx as [Hs [_ Hl]]. split; [exact Hl | exact Hs].
Defined.

(** X17 at the list with the one element [null]. *)
Lemma save_then_load_witness :
  exists ls',
    GetAlertsSection.saveAlerts (H := printingHost) exampleStorage [JNull]
    = Normal ls'
    /\ GetAlertsSection.loadAlerts (H := printingHost) ls' = Normal [JNull].
Proof.
  apply (@save_then_load printingHost printingHostLaws exampleStorage [JNull]);
    reflexivity.
Defined.

(** X18 at the example form. *)
Lemma new_alert_well_formed_witness :
  let a := GetAlertsSection.newAlert (H := exampleHost) exampleProps
             exampleForm exampleClock in
  (0 < GetAlertsSection.threshold a)%Q
  /\ GetAlertsSection.email a = "a@."%string.
Proof.
  intros a.
  destruct (@new_alert_well_formed exampleHost exampleProps exampleForm
              exampleClock eq_refl) as [_ [_ [_ [Hth [He _]]]]].
  split; [exact Hth | exact He].
Defined.

(** ** The most recent fetch does reach the display *)
Module RateFetchProgress.
Import RateFetch.

Lemma setPhase_other (id : nat) (ph : Phase) (e : Effect) (es : list Effect) :
  eff_id e <> id ->
  setPhase id ph (e :: es) = e :: setPhase id ph es.
Proof.
  intros Hne. unfold setPhase. simpl.
  destruct (Nat.eqb_spec (eff_id e) id); [contradiction | reflexivity].
Qed.

(** A render with a new base leaves its run pending at the fetch. *)
Lemma start_pending (c : Component) (base : string) (s : State) :
  Forall (fun e => cancelled e = true) (effects s) ->
  (c = FullPage -> base <> ""%string) ->
  pending AwaitFetch (nextId s) base (start c base s)
  /\ rates (start c base s) = rates s.
Proof.
  intros Hc Hbase. unfold start, pending. destruct c.
  - assert (Ht : truthy_string base = true).
    { unfold truthy_string. destruct (String.eqb_spec base "") as [E|];
        [destruct (Hbase eq_refl E) | reflexivity]. }
    rewrite Ht. simpl. split; [|reflexivity].
    eexists. repeat split. exact Hc.
  - destruct (targets base) eqn:E;
      [destruct (targets_never_empty_aux base E)|].
    simpl. split; [|reflexivity]. eexists. repeat split. exact Hc.
Qed.

(** Settling a call of an older run changes nothing on display and leaves
    the most recent run where it stands. *)
Lemma other_event_keeps (c : Component) (ph : Phase) (latest : nat)
      (base : string) (s : State) (ev : Event) :
  pending ph latest base s -> settlesOther latest ev ->
  pending ph latest base (step c s ev) /\ rates (step c s ev) = rates s.
Proof.
  intros [older [He [Hc [Hl Herr]]]] Hev.
  assert (Hfind : forall id, id <> latest ->
             match findEffect s id with
             | Some e => cancelled e = true /\ eff_id e = id
             | None => True
             end).
  { intros id Hid. unfold findEffect. rewrite He. simpl.
    destruct (Nat.eqb_spec latest id) as [E|_]; [congruence|].
    destruct (find (fun e => Nat.eqb (eff_id e) id) older) as [e|] eqn:Ef;
      [|exact I].
    apply find_some in Ef. destruct Ef as [Hin Hid'].
    rewrite Forall_forall in Hc. split; [apply Hc, Hin|].
    apply Nat.eqb_eq, Hid'. }
  assert (Hmove : forall id ph', id <> latest ->
             pending ph latest base
                     (withEffects (setPhase id ph' (effects s)) s)
             /\ rates (withEffects (setPhase id ph' (effects s)) s) = rates s).
  { intros id ph' Hid. split; [|reflexivity]. unfold pending. simpl.
    rewrite He, setPhase_other by (simpl; congruence).
    eexists. repeat split; try assumption.
    apply RateFetchFacts.setPhase_cancelled, Hc. }
  destruct ev as [b | | id ok | id | id d | id]; simpl in Hev;
    try contradiction; unfold step;
    specialize (Hfind id Hev);
    (destruct (findEffect s id) as [e|];
     [destruct Hfind as [Hce Hide] | split; [exists older; auto | reflexivity]]).
  - destruct (inPhase AwaitFetch e);
      [|split; [exists older; auto | reflexivity]].
    destruct ok; [apply Hmove, Hev|].
    unfold catchBlock. rewrite Hce, Hide. apply Hmove, Hev.
  - destruct (inPhase AwaitFetch e);
      [|split; [exists older; auto | reflexivity]].
    unfold catchBlock. rewrite Hce, Hide. apply Hmove, Hev.
  - destruct (inPhase AwaitJson e);
      [|split; [exists older; auto | reflexivity]].
    unfold applyData. rewrite Hce, Hide. apply Hmove, Hev.
  - destruct (inPhase AwaitJson e);
      [|split; [exists older; auto | reflexivity]].
    unfold catchBlock. rewrite Hce, Hide. apply Hmove, Hev.
Qed.

Lemma other_events_keep (c : Component) (ph : Phase) (latest : nat)
      (base : string) (evs : list Event) :
  forall s,
    pending ph latest base s -> Forall (settlesOther latest) evs ->
    pending ph latest base (fold_left (step c) evs s)
    /\ rates (fold_left (step c) evs s) = rates s.
Proof.
  induction evs as [|ev evs IH]; intros s Hp Hall; [split; [exact Hp|reflexivity]|].
  inversion Hall as [|? ? Hev Hall']; subst. simpl.
  destruct (other_event_keeps c ph latest base s ev Hp Hev) as [Hp' Hr'].
  destruct (IH _ Hp' Hall') as [Hp'' Hr'']. split; [exact Hp''|].
  rewrite Hr''. exact Hr'.
Qed.

(** After any history, a render with a new base starts a pending run. *)
Lemma render_pending (c : Component) (evs : list Event) (base : string) :
  baseCurrency (run c evs) <> Some base ->
  (c = FullPage -> base <> ""%string) ->
  pending AwaitFetch (nextId (run c evs)) base
          (step c (run c evs) (Render base)).
Proof.
  intros Hnew Hbase.
  pose proof (RateFetchFacts.Inv_fold c evs (init c) (RateFetchFacts.Inv_init c))
    as HI.
  fold (run c evs) in HI. set (s0 := run c evs) in *.
  unfold step. destruct (baseCurrency s0) as [b|] eqn:Eb.
  - destruct (String.eqb_spec b base) as [E|_]; [congruence|].
    cbv zeta.
    match goal with
    | |- pending _ _ _ (start c base ?s') =>
        destruct (start_pending c base s') as [Hp _];
        [simpl; apply RateFetchFacts.cleanup_all_cancelled, HI | exact Hbase |]
    end.
    unfold nextId in *. simpl in Hp.
    replace (List.length (cleanup (effects s0)))
      with (List.length (effects s0)) in Hp
      by (destruct (effects s0); reflexivity).
    exact Hp.
  - match goal with
    | |- pending _ _ _ (start c base ?s') =>
        destruct (start_pending c base s') as [Hp _];
        [simpl | exact Hbase | exact Hp]
    end.
    destruct HI as [Hst _]. unfold staleCancelled in Hst.
    destruct (effects s0) as [|e es]; [constructor|].
    destruct Hst as [_ [Hb _]]. congruence.
Qed.

Lemma find_latest (ph : Phase) (latest : nat) (base : string) (s : State) :
  pending ph latest base s ->
  findEffect s latest = Some (mkEffect latest base false ph).
Proof.
  intros [older [He _]]. unfold findEffect. rewrite He. simpl.
  rewrite Nat.eqb_refl. reflexivity.
Qed.

Lemma advance_pending (ph ph' : Phase) (latest : nat) (base : string)
      (s : State) :
  pending ph latest base s ->
  pending ph' latest base (withEffects (setPhase latest ph' (effects s)) s).
Proof.
  intros [older [He [Hc [Hl Herr]]]]. unfold pending.
  cbn [effects loading error withEffects]. rewrite He.
  exists (setPhase latest ph' older). split; [|split; [|split]].
  - unfold setPhase. cbn [map eff_id eff_base cancelled].
    rewrite Nat.eqb_refl. reflexivity.
  - apply RateFetchFacts.setPhase_cancelled, Hc.
  - exact Hl.
  - exact Herr.
Qed.
End RateFetchProgress.

(** X19: the response for the most recent base does reach the display.
    After any history, when the base changes and the fetch of the new run
    and its body both succeed, the rates shown are those of that response,
    the loading flag is off and no error is shown, whatever calls of older
    runs settle in between. *)
Theorem latest_response_is_shown
        (c : RateFetch.Component) (evs stale1 stale2 : list RateFetch.Event)
        (base : string) (data : option Rates) :
  let latest := RateFetch.nextId (RateFetch.run c evs) in
  RateFetch.baseCurrency (RateFetch.run c evs) <> Some base ->
  (c = RateFetch.FullPage -> base <> ""%string) ->
  Forall (settlesOther latest) stale1 ->
  Forall (settlesOther latest) stale2 ->
  let s := RateFetch.run c
             (evs ++ [RateFetch.Render base] ++ stale1
                  ++ [RateFetch.FetchResolved latest true] ++ stale2
                  ++ [RateFetch.JsonResolved latest data]) in
  RateFetch.rates s
  = match c with
    | RateFetch.FullPage => data
    | RateFetch.Section =>
        match data with Some r => Some r | None => Some [] end
    end
  /\ RateFetch.loading s = false
  /\ RateFetch.error s = None.
Proof.
  intros latest Hnew Hbase Hs1 Hs2 s.
  pose proof (RateFetchProgress.render_pending c evs base Hnew Hbase) as Hp.
  fold latest in Hp.
  unfold s, RateFetch.run. rewrite !fold_left_app.
  fold (RateFetch.run c evs). cbn [fold_left].
  set (s1 := RateFetch.step c (RateFetch.run c evs) (RateFetch.Render base))
    in *.
  destruct (RateFetchProgress.other_events_keep c _ latest base stale1 s1 Hp Hs1)
    as [Hp2 _].
  set (s2 := fold_left (RateFetch.step c) stale1 s1) in *.
  assert (Hp3 : pending RateFetch.AwaitJson latest base
                  (RateFetch.step c s2 (RateFetch.FetchResolved latest true))).
  { unfold RateFetch.step.
    rewrite (RateFetchProgress.find_latest _ _ _ _ Hp2).
    cbn [RateFetch.inPhase RateFetch.phase].
    apply (RateFetchProgress.advance_pending _ _ _ _ _ Hp2). }
  set (s3 := RateFetch.step c s2 (RateFetch.FetchResolved latest true)) in *.
  destruct (RateFetchProgress.other_events_keep c _ latest base stale2 s3
              Hp3 Hs2) as [Hp4 _].
  set (s4 := fold_left (RateFetch.step c) stale2 s3) in *.
  unfold RateFetch.step.
  rewrite (RateFetchProgress.find_latest _ _ _ _ Hp4).
  cbn [RateFetch.inPhase RateFetch.phase]. unfold RateFetch.applyData.
  cbn [RateFetch.cancelled].
  destruct Hp4 as [older [He [Hc [Hl Herr]]]].
  destruct c; cbn; auto.
Qed.

(** X19 at the first mount of the full page with the base USD. *)
Lemma latest_response_is_shown_witness :
  let s := RateFetch.run RateFetch.FullPage
             [ RateFetch.Render "USD";
               RateFetch.FetchResolved 0 true;
               RateFetch.JsonResolved 0 (Some scenarioA) ] in
  RateFetch.rates s = Some scenarioA
  /\ RateFetch.loading s = false
  /\ RateFetch.error s = None.
Proof.
  apply (latest_response_is_shown RateFetch.FullPage [] [] []
           "USD"%string (Some scenarioA)).
  - discriminate.
  - intros _. discriminate.
  - constructor.
  - constructor.
Defined.

Section FetchFailure.
Import RateFetch.

Lemma catchBlock_live (c : Component) (ph : Phase) (latest : nat)
      (base : string) (s : State) :
  let s' := catchBlock c (mkEffect latest base false ph) s in
  loading s' = false
  /\ error s' <> None
  /\ rates s' = match c with
                | FullPage => None
                | Section => Some (fallbackRates base)
                end.
Proof.
  unfold catchBlock. cbn [cancelled eff_id eff_base].
  destruct c; cbn; repeat split; discriminate.
Qed.

(** X20: when the call of the most recent run fails, in any of the three
    ways, the loading flag goes off and an error is shown; the full page
    drops its rates, so that its table is empty, and the section stores the
    fallback snapshot of the new base. *)
Theorem latest_failure_falls_back
        (c : Component) (evs stale failure : list Event) (base : string) :
  let latest := nextId (run c evs) in
  baseCurrency (run c evs) <> Some base ->
  (c = FullPage -> base <> ""%string) ->
  Forall (settlesOther latest) stale ->
  fails latest failure ->
  let s := run c (evs ++ [Render base] ++ stale ++ failure) in
  loading s = false
  /\ error s <> None
  /\ match c with
     | FullPage =>
         rates s = None
         /\ forall (C : Collator) focus range inverse,
              CurrencyChartsFullPage.rows (rates s) base focus range inverse
              = []
     | Section => rates s = Some (fallbackRates base)
     end.
Proof.
  intros latest Hnew Hbase Hstale Hfail s.
  pose proof (RateFetchProgress.render_pending c evs base Hnew Hbase) as Hp.
  fold latest in Hp.
  unfold s, run. rewrite !fold_left_app. fold (run c evs). cbn [fold_left].
  set (s1 := step c (run c evs) (Render base)) in *.
  destruct (RateFetchProgress.other_events_keep c _ latest base stale s1
              Hp Hstale) as [Hp2 _].
  set (s2 := fold_left (step c) stale s1) in *.
  assert (Hend : forall ph s',
             let r := catchBlock c (mkEffect latest base false ph) s' in
             loading r = false
             /\ error r <> None
             /\ match c with
                | FullPage =>
                    rates r = None
                    /\ forall (C : Collator) focus range inverse,
                         CurrencyChartsFullPage.rows (rates r) base focus
                                                     range inverse = []
                | Section => rates r = Some (fallbackRates base)
                end).
  { intros ph s' r.
    destruct (catchBlock_live c ph latest base s') as [Hl [He Hr]].
    fold r in Hl, He, Hr. split; [exact Hl|]. split; [exact He|].
    destruct c; [|exact Hr]. split; [exact Hr|].
    intros C focus range inverse. rewrite Hr. reflexivity. }
  destruct Hfail as [-> | [-> | [between [Hb ->]]]]; cbn [fold_left].
  - unfold step. rewrite (RateFetchProgress.find_latest _ _ _ _ Hp2).
    cbn [inPhase phase]. apply Hend.
  - unfold step. rewrite (RateFetchProgress.find_latest _ _ _ _ Hp2).
    cbn [inPhase phase]. apply Hend.
  - rewrite fold_left_app. cbn [fold_left].
    assert (Hp3 : pending AwaitJson latest base
                    (step c s2 (FetchResolved latest true))).
    { unfold step. rewrite (RateFetchProgress.find_latest _ _ _ _ Hp2).
      cbn [inPhase phase].
      apply (RateFetchProgress.advance_pending _ _ _ _ _ Hp2). }
    destruct (RateFetchProgress.other_events_keep c _ latest base between _
                Hp3 Hb) as [Hp4 _].
    set (s4 := fold_left (step c) between
                 (step c s2 (FetchResolved latest true))) in *.
    unfold step. rewrite (RateFetchProgress.find_latest _ _ _ _ Hp4).
    cbn [inPhase phase]. apply Hend.
Qed.
End FetchFailure.

(** X20 at the first mount of the section with the base USD and a rejected
    fetch. *)
Lemma latest_failure_falls_back_witness :
  let s := RateFetch.run RateFetch.Section
             [ RateFetch.Render "USD"; RateFetch.FetchRejected 0 ] in
  RateFetch.loading s = false
  /\ RateFetch.error s <> None
  /\ RateFetch.rates s = Some (RateFetch.fallbackRates "USD").
Proof.
  apply (latest_failure_falls_back RateFetch.Section [] []
           [RateFetch.FetchRejected 0] "USD"%string).
  - discriminate.
  - discriminate.
  - constructor.
  - left. reflexivity.
Defined.

(** ** The currency dropdown *)
Section Dropdown.
Import CurrencyDropdown.

Lemma prefix_refl (s : string) : String.prefix s s = true.
Proof.
  induction s as [|c s IH]; [reflexivity|]. simpl.
  destruct (ascii_dec c c) as [_ | Hne]; [exact IH | contradiction].
Qed.

Lemma includes_refl (s : string) : includes s s = true.
Proof.
  destruct s as [|c s]; [reflexivity|].
  cbn [includes]. rewrite prefix_refl. reflexivity.
Qed.

(** X21: the search of the dropdown only ever narrows the list, keeping
    its order; a search that is blank shows the whole list; and typing the
    code of a listed currency, in any case and with spaces around it, always
    shows that currency. *)
Theorem search_by_code_finds_currency {K : Casing}
        (currencies : list CurrencyMeta) (search : string) :
  (exists keep, filtered currencies search = filter keep currencies)
  /\ (toLowerCase ""%string = ""%string -> trim search = ""%string ->
      filtered currencies search = currencies)
  /\ (forall c,
        In c currencies ->
        toLowerCase (trim search) = toLowerCase (code c) ->
        In c (filtered currencies search)).
Proof.
  unfold filtered. cbv zeta. split; [|split].
  - destruct (negb (truthy_string (toLowerCase (trim search))));
      [|eexists; reflexivity].
    exists (fun _ => true). symmetry.
    induction currencies as [|c l IH]; [reflexivity|]. simpl. f_equal. exact IH.
  - intros Hlow Hblank. rewrite Hblank, Hlow. reflexivity.
  - intros c Hin Hq.
    destruct (negb (truthy_string (toLowerCase (trim search))));
      [exact Hin|].
    apply filter_In. split; [exact Hin|].
    rewrite Hq, includes_refl. reflexivity.
Qed.

Section ApiList.
Context {C : Collator} {L : CollatorLaws C}.

Let byCode (a b : CurrencyMeta) : comparison :=
  localeCompare (code a) (code b).

Lemma byCode_flip (a b : CurrencyMeta) :
  byCode a b = Gt -> notAfter byCode b a.
Proof.
  unfold notAfter, byCode. intros H.
  rewrite (localeCompare_Gt_Lt _ _ H). discriminate.
Qed.

Lemma byCode_trans (a b c : CurrencyMeta) :
  notAfter byCode a b -> notAfter byCode b c -> notAfter byCode a c.
Proof. unfold notAfter, byCode. apply localeCompare_notAfter_trans. Qed.

Lemma strictly_sorted_of_NoDup (l : list CurrencyMeta) :
  StronglySorted (notAfter byCode) l ->
  NoDup (map code l) ->
  StronglySorted (fun a b => localeCompare (code a) (code b) = Lt) l.
Proof.
  induction 1 as [|a l Hl IH Ha]; intros Hnd; [constructor|].
  simpl in Hnd. inversion Hnd as [|? ? Hnotin Hnd']; subst.
  constructor; [apply IH, Hnd'|].
  rewrite Forall_forall in *. intros b Hb. specialize (Ha b Hb).
  unfold notAfter, byCode in Ha.
  destruct (localeCompare (code a) (code b)) eqn:E;
    [| reflexivity | congruence].
  apply localeCompare_eq in E. exfalso. apply Hnotin.
  rewrite E. apply in_map, Hb.
Qed.

(** X22: the list built from the response of the currencies API has
    exactly the codes of the response, in strictly ascending order of code;
    every entry carries the name the response gives for its code and the
    flag class [getFlagClass] gives. *)
Theorem api_currencies_sorted_and_complete (data : list (string * string)) :
  wellFormed data ->
  let list := apiCurrencies data in
  Permutation (map code list) (Object_keys data)
  /\ StronglySorted (fun a b => localeCompare (code a) (code b) = Lt) list
  /\ Forall (fun c => lookup data (code c) = Some (name c)
                      /\ flagClass c = getFlagClass (code c)) list.
Proof.
  intros Hwf list. unfold list, apiCurrencies. cbv zeta.
  set (next := map (fun entry => mkCurrency (fst entry) (snd entry)
                                            (getFlagClass (fst entry))) data).
  assert (Hcodes : map code next = Object_keys data).
  { unfold next, Object_keys. rewrite map_map. reflexivity. }
  assert (Hperm : Permutation (map code (Array_sort byCode next))
                              (Object_keys data)).
  { rewrite <- Hcodes. apply Permutation_map, Array_sort_Permutation. }
  split; [exact Hperm|]. split.
  - apply strictly_sorted_of_NoDup.
    + apply Array_sort_sorted; [exact byCode_flip | exact byCode_trans].
    + eapply Permutation_NoDup; [apply Permutation_sym, Hperm | exact Hwf].
  - eapply Permutation_Forall;
      [apply Permutation_sym, Array_sort_Permutation|].
    unfold next. apply Forall_map.
    unfold wellFormed in Hwf. clear next Hcodes Hperm list.
    induction data as [|[k v] data IH]; [constructor|].
    simpl in Hwf. inversion Hwf as [|? ? Hnotin Hnd]; subst.
    constructor.
    + simpl. rewrite String.eqb_refl. split; reflexivity.
    + eapply Forall_impl; [|apply IH, Hnd].
      intros [k' v'] Hin. revert Hin. simpl.
      destruct (String.eqb_spec k k') as [-> | _]; [|tauto].
      intros [Hl _]. exfalso. apply Hnotin.
      eapply lookup_Some_In, Hl.
Qed.
End ApiList.
End Dropdown.

(** X21 at the fallback list and the search [ usd ] with spaces around. *)
Lemma search_by_code_finds_currency_witness :
  In (CurrencyDropdown.mkCurrency "USD" "US Dollar" (Some "fi fi-us"%string))
     (CurrencyDropdown.filtered (K := asciiCasing)
        CurrencyDropdown.fallbackCurrencies " USD ").
Proof.
  destruct (@search_by_code_finds_currency asciiCasing
              CurrencyDropdown.fallbackCurrencies " USD "%string)
    as [_ [_ Hfind]].
  apply Hfind; [left; reflexivity | reflexivity].
Defined.

(** X22 at a response with two currencies, given in descending order. *)
Lemma api_currencies_sorted_and_complete_witness :
  map CurrencyDropdown.code
      (CurrencyDropdown.apiCurrencies (C := codeUnitCollator)
         [("USD", "US Dollar"); ("EUR", "Euro")]%string)
  = ["EUR"; "USD"]%string
  /\ StronglySorted
       (fun a b => String.compare (CurrencyDropdown.code a)
                                  (CurrencyDropdown.code b) = Lt)
       (CurrencyDropdown.apiCurrencies (C := codeUnitCollator)
          [("USD", "US Dollar"); ("EUR", "Euro")]%string).
Proof.
  split; [reflexivity|].
  refine (proj1 (proj2 (@api_currencies_sorted_and_complete codeUnitCollator
                          codeUnitLaws
                          [("USD", "US Dollar"); ("EUR", "Euro")]%string _))).
  unfold wellFormed. simpl. repeat constructor; simpl; intuition discriminate.
Defined.

(** ** The seeds the tables pass to the trend generator *)
Section Seeds.
Context {C : Collator}.
Variables (rates : Rates) (baseCurrency focusCurrency : string)
          (range : RangeKey) (inverse : bool).

Lemma forEach_ext_from {A S : Type} (f g : S -> A -> Z -> S)
      (lo hi : Z) :
  (forall s x i, lo <= i < hi -> f s x i = g s x i) ->
  forall l i s, lo <= i -> i + Z.of_nat (List.length l) <= hi ->
                forEach f l i s = forEach g l i s.
Proof.
  intros Hfg. induction l as [|x l IH]; intros i s Hlo Hhi; simpl.
  - reflexivity.
  - simpl List.length in Hhi. rewrite Hfg by lia. apply IH; lia.
Qed.

Lemma mapi_ext_from {A B : Type} (f g : A -> Z -> B) (lo hi : Z) :
  (forall x i, lo <= i < hi -> f x i = g x i) ->
  forall l i, lo <= i -> i + Z.of_nat (List.length l) <= hi ->
              mapi f l i = mapi g l i.
Proof.
  intros Hfg. induction l as [|x l IH]; intros i Hlo Hhi; simpl.
  - reflexivity.
  - simpl List.length in Hhi. rewrite Hfg by lia. f_equal. apply IH; lia.
Qed.

Lemma candidateCodes_length :
  (List.length (CurrencyChartsFullPage.candidateCodes rates baseCurrency
                                                      focusCurrency)
   <= S (List.length (Object_keys rates)))%nat.
Proof.
  unfold CurrencyChartsFullPage.candidateCodes. cbv zeta.
  destruct (truthy_string focusCurrency
            && negb (String.eqb focusCurrency baseCurrency)
            && negb (includes_code (Object_keys rates) focusCurrency));
    simpl; lia.
Qed.

Lemma gridList_filter_length (f : CurrencyChartsSection.RowMeta -> bool) :
  (List.length (filter f (CurrencyChartsSection.gridList baseCurrency
                                                         focusCurrency))
   <= 9)%nat.
Proof.
  eapply Nat.le_trans; [apply filter_length_le|].
  unfold CurrencyChartsSection.gridList. cbv zeta.
  destruct (negb (CurrencyChartsSection.hasCode CurrencyChartsSection.ROWS
                                                baseCurrency));
    match goal with
    | |- context [if negb ?b then _ else _] => destruct (negb b)
    end; simpl; lia.
Qed.

(** X23: the tables call [makeTrend] with the selected range and with
    seeds from 0 up only: the full page with none above the number of
    entries of the snapshot plus 20, the section with none above 18.  Either
    table is the table over its copy of [makeTrend], and the table over a
    generator depends on no answer of the generator but those for the
    selected range at such seeds. *)
Theorem tables_call_makeTrend_at_small_seeds :
  (CurrencyChartsFullPage.rows (Some rates) baseCurrency focusCurrency
                               range inverse
   = TrendCalls.fullPageRowsWith CurrencyChartsFullPage.makeTrend rates
                                 baseCurrency focusCurrency range inverse
   /\ CurrencyChartsSection.rows rates baseCurrency focusCurrency
                                 range inverse
      = TrendCalls.sectionRowsWith CurrencyChartsSection.makeTrend rates
                                   baseCurrency focusCurrency range inverse)
  /\ (forall makeTrend makeTrend' : RangeKey -> Z -> list Q,
        (forall seed,
            0 <= seed <= Z.of_nat (List.length (Object_keys rates)) + 20 ->
            makeTrend range seed = makeTrend' range seed) ->
        TrendCalls.fullPageRowsWith makeTrend rates baseCurrency
                                    focusCurrency range inverse
        = TrendCalls.fullPageRowsWith makeTrend' rates baseCurrency
                                      focusCurrency range inverse)
  /\ (forall makeTrend makeTrend' : RangeKey -> Z -> list Q,
        (forall seed,
            0 <= seed <= 18 ->
            makeTrend range seed = makeTrend' range seed) ->
        TrendCalls.sectionRowsWith makeTrend rates baseCurrency
                                   focusCurrency range inverse
        = TrendCalls.sectionRowsWith makeTrend' rates baseCurrency
                                     focusCurrency range inverse).
Proof.
  split; [split; reflexivity|]. split.
  - intros mk mk' Hagree. unfold TrendCalls.fullPageRowsWith. cbv zeta.
    f_equal.
    apply (forEach_ext_from _ _ 0
             (Z.of_nat (S (List.length (Object_keys rates)))));
      [| lia | pose proof candidateCodes_length; lia].
    intros s c i Hi. unfold TrendCalls.pushRowWith. cbv zeta.
    rewrite (Hagree (i + (if inverse then 20 else 0)))
      by (destruct inverse; lia).
    reflexivity.
  - intros mk mk' Hagree. unfold TrendCalls.sectionRowsWith. cbv zeta.
    do 2 f_equal.
    apply (mapi_ext_from _ _ 0 9);
      [| lia | pose proof (gridList_filter_length
                             (fun row =>
                                negb (String.eqb
                                        (CurrencyChartsSection.meta_code row)
                                        baseCurrency))); lia].
    intros row i Hi. unfold TrendCalls.toRowWith. cbv zeta.
    rewrite (Hagree (i + (if inverse then 10 else 0)))
      by (destruct inverse; lia).
    reflexivity.
Qed.
End Seeds.

(** X23 at scenario A: a generator that answers with the empty trend
    outside the seeds from 0 to 22, or from 0 to 18, gives the tables of the
    components. *)
Lemma tables_call_makeTrend_at_small_seeds_witness :
  TrendCalls.fullPageRowsWith (C := codeUnitCollator)
    (onlySeedsUpTo 22 CurrencyChartsFullPage.makeTrend)
    scenarioA "USD" "INR" Range24H false
  = CurrencyChartsFullPage.rows (Some scenarioA) "USD" "INR" Range24H false
  /\ TrendCalls.sectionRowsWith (C := codeUnitCollator)
       (onlySeedsUpTo 18 CurrencyChartsSection.makeTrend)
       scenarioA "USD" "INR" Range24H false
     = CurrencyChartsSection.rows scenarioA "USD" "INR" Range24H false.
Proof.
  destruct (@tables_call_makeTrend_at_small_seeds codeUnitCollator scenarioA
              "USD" "INR" Range24H false) as [[EF ES] [HF HS]].
  split.
  - rewrite EF. apply HF. intros seed Hseed. unfold onlySeedsUpTo.
    replace (0 <=? seed) with true by (symmetry; apply Z.leb_le; lia).
    replace (seed <=? 22) with true
      by (symmetry; apply Z.leb_le; simpl in Hseed; lia).
    reflexivity.
  - rewrite ES. apply HS. intros seed Hseed. unfold onlySeedsUpTo.
    replace (0 <=? seed) with true by (symmetry; apply Z.leb_le; lia).
    replace (seed <=? 18) with true by (symmetry; apply Z.leb_le; lia).
    reflexivity.
Defined.
